(** * Python Quiz Master: the question bank, the HTTP API and the CLI loop

    A shallow embedding of [chatbot.py] and [main.py].

    - Python [int] is [Z]; [str] is [string] (a sequence of bytes, the
      text being ASCII wherever a decision of the program depends on it);
      a Python list or tuple is a [list].
    - A Python exception is a value of [exn]; a computation that may raise
      returns a [result].
    - The process-wide state (the module global [QUESTIONS] of [main.py] and
      the hidden generator of the [random] module) is the record [World],
      threaded through every handler.
    - The interactive loop is a step function on configurations that consume
      [stdin] line by line and append to [stdout]. *)

From Stdlib Require Import ZArith List String Ascii Bool Lia Permutation.
From Stdlib Require Import Decimal DecimalString DecimalZ.
Import ListNotations.

Local Open Scope string_scope.
Local Open Scope Z_scope.

(** ** Python values the program relies on *)

Module Py.

(** The exceptions the two files can raise. *)
Inductive exn : Type :=
| ValueError
| IndexError
| EOFError
| ValidationError.

Inductive result (A : Type) : Type :=
| Return (a : A)
| Raise (e : exn).
Arguments Return {A} a.
Arguments Raise {A} e.

Definition bind {A B : Type} (m : result A) (k : A -> result B) : result B :=
  match m with
  | Return a => k a
  | Raise e => Raise e
  end.

Notation "x <- m ;; k" := (bind m (fun x => k))
  (at level 61, m at next level, right associativity).

(** [len(l)] *)
Definition len {A : Type} (l : list A) : Z := Z.of_nat (List.length l).

(** [l[i]]: a negative index counts from the end; outside the list the
    subscript raises [IndexError]. *)
Definition getitem {A : Type} (l : list A) (i : Z) : result A :=
  let j := if i <? 0 then len l + i else i in
  if j <? 0 then Raise IndexError
  else match nth_error l (Z.to_nat j) with
       | Some a => Return a
       | None => Raise IndexError
       end.

(** [t.index(x)]: the first position holding [x], [ValueError] without one. *)
Fixpoint index (t : list string) (x : string) : result Z :=
  match t with
  | [] => Raise ValueError
  | y :: t' =>
      if String.eqb y x then Return 0
      else i <- index t' x ;; Return (i + 1)
  end.

(** [x in t] *)
Definition contains (t : list string) (x : string) : bool :=
  existsb (String.eqb x) t.

(** [str(n)] for an [int]: decimal digits, with a leading minus sign
    below zero. *)
Definition str (n : Z) : string := NilZero.string_of_int (Z.to_int n).

(** [int(s)] on a decimal literal (an optional minus sign, then digits);
    [None] when [s] is not one. *)
Definition parse_int (s : string) : option Z :=
  option_map Z.of_int (NilZero.int_of_string s).

(** [s.lower()] on ASCII text: the letters A to Z move to a to z, every
    other byte stays. *)
Definition lower_ascii (c : ascii) : ascii :=
  let n := nat_of_ascii c in
  if (andb (Nat.leb 65 n) (Nat.leb n 90)) then ascii_of_nat (n + 32) else c.

Fixpoint lower (s : string) : string :=
  match s with
  | EmptyString => EmptyString
  | String c s' => String (lower_ascii c) (lower s')
  end.

(** [s.strip()] on ASCII text: the whitespace bytes are tab, line feed,
    vertical tab, form feed, carriage return, the four separators 28 to 31
    and the space. *)
Definition is_space (c : ascii) : bool :=
  let n := nat_of_ascii c in
  orb (andb (Nat.leb 9 n) (Nat.leb n 13))
      (orb (andb (Nat.leb 28 n) (Nat.leb n 31)) (Nat.eqb n 32)).

Fixpoint lstrip (s : string) : string :=
  match s with
  | EmptyString => EmptyString
  | String c s' => if is_space c then lstrip s' else s
  end.

Fixpoint rstrip (s : string) : string :=
  match s with
  | EmptyString => EmptyString
  | String c s' =>
      match rstrip s' with
      | EmptyString => if is_space c then EmptyString else String c EmptyString
      | r => String c r
      end
  end.

Definition strip (s : string) : string := rstrip (lstrip s).

(** The line feed that [print] writes after its argument. *)
Definition nl : string := String (ascii_of_nat 10) EmptyString.

End Py.

Import Py.

(** ** chatbot.py: the data model and the bank *)

(** [@dataclass(frozen=True) class Question] *)
Record Question : Type := mkQuestion {
  question_text : string;
  options : list string;
  correct_option_key : string;
  explanation : string
}.

Definition LETTER_KEYS : list string := ["a"; "b"; "c"; "d"].

Definition build_questions : list Question :=
  [ mkQuestion
      "What is the correct file extension for Python files?"
      [".pyt"; ".pt"; ".py"; ".python"]
      "c"
      ".py is the standard extension for Python source files.";
    mkQuestion
      "Which keyword is used to define a function in Python?"
      ["func"; "def"; "function"; "define"]
      "b"
      "Functions in Python are defined using the 'def' keyword.";
    mkQuestion
      "How do you write a comment in Python?"
      ["// comment"; "<!-- comment -->"; "/* comment */"; "# comment"]
      "d"
      "Python uses the hash symbol (#) for single-line comments.";
    mkQuestion
      "What is the output type of input() in Python 3?"
      ["int"; "str"; "float"; "bool"]
      "b"
      "input() returns a string. Convert it if you need another type.";
    mkQuestion
      "Which of the following is a valid list in Python?"
      ["{1, 2, 3}"; "(1, 2, 3)"; "[1, 2, 3]"; "<1, 2, 3>"]
      "c"
      "Lists use square brackets, e.g., [1, 2, 3]."
  ].

(** ** The [random] module

    The module keeps one hidden generator for the whole process;
    [random.randint] and [random.shuffle] both draw from it and advance it.
    The generator is an oracle: [tape] holds the raw value of every future
    draw and [cursor] counts the draws made so far.  Nothing below depends
    on how the raw values are distributed. *)

Record Random : Type := mkRandom {
  tape : nat -> Z;
  cursor : nat
}.

(** [_randbelow(n)] for [n > 0]: a value in [0, n), one draw consumed. *)
Definition randbelow (g : Random) (n : Z) : Z * Random :=
  (tape g (cursor g) mod n, mkRandom (tape g) (S (cursor g))).

(** [random.randint(a, b)]: [randrange(a, b + 1)], which raises
    [ValueError] on an empty range before drawing. *)
Definition randint (a b : Z) (g : Random) : result Z * Random :=
  if b + 1 - a <=? 0 then (Raise ValueError, g)
  else let (r, g') := randbelow g (b + 1 - a) in (Return (a + r), g').

Section ListUpdate.
Context {A : Type}.

(** [l[i] = v] for an index inside the list. *)
Fixpoint setitem (l : list A) (i : nat) (v : A) : list A :=
  match l, i with
  | [], _ => []
  | _ :: t, O => v :: t
  | h :: t, S i' => h :: setitem t i' v
  end.

(** [x[i], x[j] = x[j], x[i]]; both indices are inside the list wherever
    [shuffle] swaps. *)
Definition swap (x : list A) (i j : nat) : list A :=
  match nth_error x i, nth_error x j with
  | Some a, Some b => setitem (setitem x i b) j a
  | _, _ => x
  end.

(** The loop of [random.shuffle]:
    [for i in reversed(range(1, len(x))): j = randbelow(i + 1); swap]. *)
Fixpoint shuffle_from (i : nat) (x : list A) (g : Random) : list A * Random :=
  match i with
  | O => (x, g)
  | S i' =>
      let (j, g') := randbelow g (Z.of_nat i + 1) in
      shuffle_from i' (swap x i (Z.to_nat j)) g'
  end.

Definition shuffle (x : list A) (g : Random) : list A * Random :=
  shuffle_from (List.length x - 1) x g.
End ListUpdate.

(** ** main.py: the models *)

(** A JSON document, as the API sends it. *)
#[warnings="-register-all"]
Inductive json : Type :=
| JInt (n : Z)
| JStr (s : string)
| JBool (b : bool)
| JArr (l : list json)
| JObj (fields : list (string * json)).

(** A Python [dict] with string keys, in insertion order. *)
Inductive value : Type :=
| VInt (n : Z)
| VStr (s : string)
| VList (l : list string).

Definition dict : Type := list (string * value).

Fixpoint dict_get (d : dict) (k : string) : option value :=
  match d with
  | [] => None
  | (k', v) :: d' => if String.eqb k' k then Some v else dict_get d' k
  end.

(** [d[k] = v]: an existing key keeps its place, a new one goes last. *)
Fixpoint dict_set (d : dict) (k : string) (v : value) : dict :=
  match d with
  | [] => [(k, v)]
  | (k', v') :: d' =>
      if String.eqb k' k then (k', v) :: d' else (k', v') :: dict_set d' k v
  end.

(** [d.update(other)] *)
Definition dict_update (d other : dict) : dict :=
  fold_left (fun acc kv => dict_set acc (fst kv) (snd kv)) other d.

Definition keys {V : Type} (d : list (string * V)) : list string := map fst d.

Definition json_keys (j : json) : list string :=
  match j with
  | JObj fields => keys fields
  | _ => []
  end.

Definition json_strings (l : list string) : json := JArr (map JStr l).

(** [class QuestionResponse(BaseModel)] *)
Module QuestionResponse.
Record t : Type := make {
  id : Z;
  question_text : string;
  options : list string
}.

(** The constructor called with keyword arguments: the three fields are
    required, other keys are ignored. *)
Definition init (kwargs : dict) : result t :=
  match dict_get kwargs "id", dict_get kwargs "question_text",
        dict_get kwargs "options" with
  | Some (VInt i), Some (VStr q), Some (VList o) => Return (make i q o)
  | _, _, _ => Raise ValidationError
  end.

Definition dump (r : t) : json :=
  JObj [("id", JInt (id r));
        ("question_text", JStr (question_text r));
        ("options", json_strings (options r))].
End QuestionResponse.

(** [class QuestionDetailResponse(BaseModel)] *)
Module QuestionDetailResponse.
Record t : Type := make {
  id : Z;
  question_text : string;
  options : list string;
  correct_option_key : string;
  explanation : string
}.

Definition init (kwargs : dict) : result t :=
  match dict_get kwargs "id", dict_get kwargs "question_text",
        dict_get kwargs "options", dict_get kwargs "correct_option_key",
        dict_get kwargs "explanation" with
  | Some (VInt i), Some (VStr q), Some (VList o), Some (VStr k), Some (VStr e) =>
      Return (make i q o k e)
  | _, _, _, _, _ => Raise ValidationError
  end.

Definition dump (r : t) : json :=
  JObj [("id", JInt (id r));
        ("question_text", JStr (question_text r));
        ("options", json_strings (options r));
        ("correct_option_key", JStr (correct_option_key r));
        ("explanation", JStr (explanation r))].
End QuestionDetailResponse.

(** [class AnswerSubmitRequest(BaseModel)]: a body that carries an integer
    [question_id] and a string [answer]; [valid] checks the two field
    constraints, [ge=0] and the pattern [^[a-d]$]. *)
Module AnswerSubmitRequest.
Record t : Type := make {
  question_id : Z;
  answer : string
}.

Definition pattern_a_d (s : string) : bool :=
  match s with
  | String c EmptyString =>
      let n := nat_of_ascii c in andb (Nat.leb 97 n) (Nat.leb n 100)
  | _ => false
  end.

Definition valid (r : t) : bool :=
  andb (0 <=? question_id r) (pattern_a_d (answer r)).
End AnswerSubmitRequest.

(** [class AnswerResponse(BaseModel)] *)
Module AnswerResponse.
Record t : Type := make {
  is_correct : bool;
  correct_answer : string;
  correct_answer_text : string;
  explanation : string
}.

Definition dump (r : t) : json :=
  JObj [("is_correct", JBool (is_correct r));
        ("correct_answer", JStr (correct_answer r));
        ("correct_answer_text", JStr (correct_answer_text r));
        ("explanation", JStr (explanation r))].
End AnswerResponse.

(** [class StatsResponse(BaseModel)] *)
Module StatsResponse.
Record t : Type := make { total_questions : Z }.
Definition dump (r : t) : json :=
  JObj [("total_questions", JInt (total_questions r))].
End StatsResponse.

(** [class HealthResponse(BaseModel)] *)
Module HealthResponse.
Record t : Type := make { status : string; message : string }.
Definition dump (r : t) : json :=
  JObj [("status", JStr (status r)); ("message", JStr (message r))].
End HealthResponse.

(** ** main.py: the process state and the handlers *)

(** What the process shares between requests: the module global
    [QUESTIONS] and the generator of the [random] module. *)
Record World : Type := mkWorld {
  QUESTIONS : list Question;
  random_inst : Random
}.

(** Module initialisation: [QUESTIONS = build_questions()]. *)
Definition startup (g : Random) : World := mkWorld build_questions g.

(** How a handler ends: it returns, it raises [HTTPException], or another
    exception escapes it. *)
Inductive Outcome (A : Type) : Type :=
| Ok (a : A)
| HTTPException (status_code : Z) (detail : string)
| Uncaught (e : exn).
Arguments Ok {A} a.
Arguments HTTPException {A} status_code detail.
Arguments Uncaught {A} e.

Definition Handler (A : Type) : Type := World -> Outcome A * World.

Definition lift {A : Type} (r : result A) : Outcome A :=
  match r with
  | Return a => Ok a
  | Raise e => Uncaught e
  end.

Definition question_to_response
    (question : Question) (question_id : Z) (include_answer : bool) : dict :=
  let base := [("id", VInt question_id);
               ("question_text", VStr (question_text question));
               ("options", VList (options question))] in
  if include_answer then
    dict_update base
      [("correct_option_key", VStr (correct_option_key question));
       ("explanation", VStr (explanation question))]
  else base.

Definition root : Handler json := fun w =>
  (Ok (JObj [("message", JStr "Python Quiz API");
             ("version", JStr "1.0.0");
             ("endpoints",
              JObj [("questions", JStr "/api/questions");
                    ("random_question", JStr "/api/questions/random");
                    ("submit_answer", JStr "/api/quiz/submit");
                    ("health", JStr "/api/health");
                    ("stats", JStr "/api/stats");
                    ("docs", JStr "/docs")])]), w).

Definition health_check : Handler HealthResponse.t := fun w =>
  (Ok (HealthResponse.make "healthy" "API is running"), w).

Definition get_stats : Handler StatsResponse.t := fun w =>
  (Ok (StatsResponse.make (len (QUESTIONS w))), w).

(** [enumerate(l)], counting from [i]. *)
Fixpoint enumerate_from {A : Type} (i : Z) (l : list A) : list (Z * A) :=
  match l with
  | [] => []
  | a :: l' => (i, a) :: enumerate_from (i + 1) l'
  end.

Definition enumerate {A : Type} (l : list A) : list (Z * A) :=
  enumerate_from 0 l.

(** A list comprehension whose element expression may raise. *)
Fixpoint comprehension {A B : Type} (f : A -> result B) (l : list A)
  : result (list B) :=
  match l with
  | [] => Return []
  | a :: l' =>
      b <- f a ;;
      bs <- comprehension f l' ;;
      Return (b :: bs)
  end.

Definition get_all_questions : Handler (list QuestionResponse.t) := fun w =>
  (lift (comprehension
           (fun iq => QuestionResponse.init
                        (question_to_response (snd iq) (fst iq) false))
           (enumerate (QUESTIONS w))), w).

(** The detail of the 404 that three handlers raise. *)
Definition not_found_detail (question_id : Z) (w : World) : string :=
  "Question with ID " ++ str question_id
    ++ " not found. Available IDs: 0-" ++ str (len (QUESTIONS w) - 1).

Definition get_question (question_id : Z) : Handler QuestionResponse.t :=
  fun w =>
  if orb (question_id <? 0) (question_id >=? len (QUESTIONS w)) then
    (HTTPException 404 (not_found_detail question_id w), w)
  else
    (lift (q <- getitem (QUESTIONS w) question_id ;;
           QuestionResponse.init (question_to_response q question_id false)),
     w).

Definition get_random_question : Handler QuestionResponse.t := fun w =>
  let (drawn, g') := randint 0 (len (QUESTIONS w) - 1) (random_inst w) in
  let w' := mkWorld (QUESTIONS w) g' in
  (lift (question_id <- drawn ;;
         q <- getitem (QUESTIONS w') question_id ;;
         QuestionResponse.init (question_to_response q question_id false)),
   w').

Definition get_question_detail (question_id : Z)
  : Handler QuestionDetailResponse.t := fun w =>
  if orb (question_id <? 0) (question_id >=? len (QUESTIONS w)) then
    (HTTPException 404 (not_found_detail question_id w), w)
  else
    (lift (q <- getitem (QUESTIONS w) question_id ;;
           QuestionDetailResponse.init
             (question_to_response q question_id true)),
     w).

(** Lines 258-259 of main.py and 101-102 of chatbot.py: the text of the
    correct option, through the position of its letter. *)
Definition correct_text (question : Question) : result string :=
  correct_idx <- index LETTER_KEYS (correct_option_key question) ;;
  getitem (options question) correct_idx.

Definition submit_answer (request : AnswerSubmitRequest.t)
  : Handler AnswerResponse.t := fun w =>
  let question_id := AnswerSubmitRequest.question_id request in
  if orb (question_id <? 0) (question_id >=? len (QUESTIONS w)) then
    (HTTPException 404 (not_found_detail question_id w), w)
  else
    (lift (question <- getitem (QUESTIONS w) question_id ;;
           let is_correct :=
             String.eqb (lower (AnswerSubmitRequest.answer request))
                        (lower (correct_option_key question)) in
           correct_answer_text <- correct_text question ;;
           Return (AnswerResponse.make is_correct
                     (correct_option_key question)
                     correct_answer_text
                     (explanation question))),
     w).

(** ** main.py: the routes

    Every [@app.get] and [@app.post] appends one route to the application,
    in the order of the decorators in the file.  A request is served by the
    first route whose path template and method both match; a path segment
    written [{name}] matches any non-empty segment, and the declared type
    of the parameter is checked only after the route has been chosen.
    The documentation pages that the framework adds by itself live outside
    [/api] and are left out, and so is the CORS middleware, which only adds
    headers. *)

Inductive Method : Type := GET | POST.

Definition Method_eqb (a b : Method) : bool :=
  match a, b with
  | GET, GET | POST, POST => true
  | _, _ => false
  end.

(** A request: the method, the path split at its slashes, and the JSON
    body when there is one (an object with an integer [question_id] and a
    string [answer]). *)
Record Request : Type := mkRequest {
  method : Method;
  path : list string;
  body : option AnswerSubmitRequest.t
}.

Record Response : Type := mkResponse {
  status_code : Z;
  content : json
}.

Inductive Segment : Type :=
| Lit (s : string)
| Param (name : string).

Fixpoint match_path (template : list Segment) (p : list string)
  : option (list (string * string)) :=
  match template, p with
  | [], [] => Some []
  | Lit s :: template', x :: p' =>
      if String.eqb s x then match_path template' p' else None
  | Param name :: template', x :: p' =>
      if String.eqb x "" then None
      else option_map (cons (name, x)) (match_path template' p')
  | _, _ => None
  end.

(** The 422 of a failed request validation; each entry of [detail] names
    the location of one offending field (the entry's type, message and
    input are left out). *)
Definition validation_error (locs : list (list string)) : Response :=
  mkResponse 422
    (JObj [("detail", JArr (map (fun loc => JObj [("loc", json_strings loc)])
                                locs))]).

(** What the framework sends for each way a handler can end; the body of
    the 500 is the plain text of the default error handler. *)
Definition respond {A : Type} (dump : A -> json) (o : Outcome A) : Response :=
  match o with
  | Ok a => mkResponse 200 (dump a)
  | HTTPException c d => mkResponse c (JObj [("detail", JStr d)])
  | Uncaught _ => mkResponse 500 (JStr "Internal Server Error")
  end.

Definition Endpoint : Type :=
  list (string * string) -> Request -> World -> Response * World.

Definition serve {A : Type} (dump : A -> json) (h : Handler A) : Endpoint :=
  fun _ _ w => let (o, w') := h w in (respond dump o, w').

(** A handler with the path parameter [question_id: int]. *)
Definition serve_by_id {A : Type} (dump : A -> json) (h : Z -> Handler A)
  : Endpoint :=
  fun params _ w =>
  match option_map snd
          (find (fun kv => String.eqb (fst kv) "question_id") params) with
  | Some raw =>
      match parse_int raw with
      | Some question_id =>
          let (o, w') := h question_id w in (respond dump o, w')
      | None => (validation_error [["path"; "question_id"]], w)
      end
  | None => (validation_error [["path"; "question_id"]], w)
  end.

Definition body_errors (r : AnswerSubmitRequest.t) : list (list string) :=
  ((if 0 <=? AnswerSubmitRequest.question_id r then []
    else [["body"; "question_id"]])
   ++ (if AnswerSubmitRequest.pattern_a_d (AnswerSubmitRequest.answer r)
       then [] else [["body"; "answer"]]))%list.

(** A handler with the body parameter [request: AnswerSubmitRequest]. *)
Definition serve_by_body {A : Type} (dump : A -> json)
    (h : AnswerSubmitRequest.t -> Handler A) : Endpoint :=
  fun _ req w =>
  match body req with
  | Some r =>
      if AnswerSubmitRequest.valid r then
        let (o, w') := h r w in (respond dump o, w')
      else (validation_error (body_errors r), w)
  | None => (validation_error [["body"]], w)
  end.

Record Route : Type := mkRoute {
  route_method : Method;
  route_path : list Segment;
  endpoint : Endpoint
}.

(** The eight routes of main.py, in the order of their decorators. *)
Definition routes : list Route :=
  [ mkRoute GET [] (serve (fun j => j) root);
    mkRoute GET [Lit "api"; Lit "health"]
      (serve HealthResponse.dump health_check);
    mkRoute GET [Lit "api"; Lit "stats"]
      (serve StatsResponse.dump get_stats);
    mkRoute GET [Lit "api"; Lit "questions"]
      (serve (fun l => JArr (map QuestionResponse.dump l)) get_all_questions);
    mkRoute GET [Lit "api"; Lit "questions"; Param "question_id"]
      (serve_by_id QuestionResponse.dump get_question);
    mkRoute GET [Lit "api"; Lit "questions"; Lit "random"]
      (serve QuestionResponse.dump get_random_question);
    mkRoute GET [Lit "api"; Lit "questions"; Param "question_id"; Lit "detail"]
      (serve_by_id QuestionDetailResponse.dump get_question_detail);
    mkRoute POST [Lit "api"; Lit "quiz"; Lit "submit"]
      (serve_by_body AnswerResponse.dump submit_answer) ].

(** The router: the first route that matches path and method serves the
    request; when only paths matched the answer is 405, and 404 when
    nothing did. *)
Fixpoint route_request (rs : list Route) (path_seen : bool) (req : Request)
  : World -> Response * World :=
  match rs with
  | [] => fun w =>
      if path_seen
      then (mkResponse 405 (JObj [("detail", JStr "Method Not Allowed")]), w)
      else (mkResponse 404 (JObj [("detail", JStr "Not Found")]), w)
  | r :: rs' =>
      match match_path (route_path r) (path req) with
      | Some params =>
          if Method_eqb (route_method r) (method req)
          then endpoint r params req
          else route_request rs' true req
      | None => route_request rs' path_seen req
      end
  end.

Definition app (req : Request) : World -> Response * World :=
  route_request routes false req.

(** The requests the statements below are about. *)
Definition GET_question (question_id : string) : Request :=
  mkRequest GET ["api"; "questions"; question_id] None.

Definition GET_question_detail (question_id : string) : Request :=
  mkRequest GET ["api"; "questions"; question_id; "detail"] None.

Definition GET_questions : Request :=
  mkRequest GET ["api"; "questions"] None.

Definition GET_random : Request := GET_question "random".

Definition POST_submit (question_id : Z) (answer : string) : Request :=
  mkRequest POST ["api"; "quiz"; "submit"]
    (Some (AnswerSubmitRequest.make question_id answer)).

(** ** chatbot.py: the interactive loop *)

(** [print(x)] writes [x] and a line feed; [stdout] is the list of the
    writes made so far, oldest first. *)
Definition print (x : string) (out : list string) : list string :=
  (out ++ [(x ++ nl)%string])%list.

Definition print_greeting (out : list string) : list string :=
  print ("Type 's' to skip a question. Good luck!" ++ nl)
    (print "Answer by typing a, b, c, or d. Type 'q' at any time to quit."
       (print "Welcome to the Python Quiz Chatbot!" out)).

(** ["\n".join(lines)] *)
Fixpoint join_lines (lines : list string) : string :=
  match lines with
  | [] => ""
  | [l] => l
  | l :: rest => l ++ nl ++ join_lines rest
  end.

Definition format_question (q : Question) : result string :=
  option_lines <-
    comprehension
      (fun io => letter <- getitem LETTER_KEYS (fst io) ;;
                 Return ("  " ++ letter ++ ") " ++ snd io))
      (enumerate (options q)) ;;
  Return (join_lines (question_text q :: option_lines)).

Definition prompt : string := "Your choice (a/b/c/d, 's' skip, 'q' quit): ".

Definition guidance : string :=
  "Please enter a valid choice: a, b, c, d, 's' to skip, or 'q' to quit.".

(** The test of line 68: [raw in ("q", "s") or raw in LETTER_KEYS]. *)
Definition accepted (raw : string) : bool :=
  orb (contains ["q"; "s"] raw) (contains LETTER_KEYS raw).

Definition tally (total_answered score : Z) : string :=
  nl ++ "Exiting quiz. You answered " ++ str total_answered
     ++ " question(s) with " ++ str score ++ " correct.".

(** Where the loop stands. *)
Inductive Control : Type :=
| Reshuffle
    (* line 80: the head of [while True] *)
| NextQuestion (pending : list Question)
    (* line 84: the head of the [for], with what it has not yet yielded *)
| Asking (q : Question) (pending : list Question)
    (* line 67: [ask_for_choice] about to call [input] *)
| Returned
    (* line 90 *)
| Crashed (e : exn).

Record Config : Type := mkConfig {
  control : Control;
  questions : list Question;
  score : Z;
  total_answered : Z;
  generator : Random;
  stdin : list string;
  stdout : list string
}.

Definition goto (k : Control) (c : Config) : Config :=
  mkConfig k (questions c) (score c) (total_answered c) (generator c)
    (stdin c) (stdout c).

Definition write (out : list string) (c : Config) : Config :=
  mkConfig (control c) (questions c) (score c) (total_answered c)
    (generator c) (stdin c) out.

(** Lines 96 to 105, for a choice among a, b, c, d. *)
Definition feedback (choice : string) (q : Question) (pending : list Question)
    (c : Config) : Config :=
  let total := total_answered c + 1 in
  let answered (sc : Z) (out : list string) : Config :=
    mkConfig (NextQuestion pending) (questions c) sc total (generator c)
      (stdin c)
      (print ("Score: " ++ str sc ++ "/" ++ str total ++ nl)
         (print ("Explanation: " ++ explanation q) out)) in
  if String.eqb choice (correct_option_key q) then
    answered (score c + 1) (print "Correct! ðŸŽ‰" (stdout c))
  else
    match correct_text q with
    | Return text =>
        answered (score c)
          (print ("Incorrect. The correct answer is '"
                    ++ correct_option_key q ++ ") " ++ text ++ "'.")
             (stdout c))
    | Raise e =>
        mkConfig (Crashed e) (questions c) (score c) total (generator c)
          (stdin c) (stdout c)
    end.

(** One step of [run_quiz_loop]: up to the next loop head, the next call
    of [input], or the end. *)
Definition step (c : Config) : Config :=
  match control c with
  | Reshuffle =>
      let (shuffled, g') := shuffle (questions c) (generator c) in
      mkConfig (NextQuestion shuffled) (questions c) (score c)
        (total_answered c) g' (stdin c) (stdout c)
  | NextQuestion [] => goto Reshuffle c
  | NextQuestion (q :: pending) =>
      match format_question q with
      | Return text => goto (Asking q pending) (write (print text (stdout c)) c)
      | Raise e => goto (Crashed e) c
      end
  | Asking q pending =>
      let out := (stdout c ++ [prompt])%list in
      match stdin c with
      | [] => goto (Crashed EOFError) (write out c)
      | line :: rest =>
          let c' := mkConfig (control c) (questions c) (score c)
                      (total_answered c) (generator c) rest out in
          let raw := lower (strip line) in
          if accepted raw then
            if String.eqb raw "q" then
              goto Returned
                (write (print (tally (total_answered c') (score c')) out) c')
            else if String.eqb raw "s" then
              goto (NextQuestion pending)
                (write (print ("Skipped." ++ nl) out) c')
            else feedback raw q pending c'
          else write (print guidance out) c'
      end
  | Returned => c
  | Crashed _ => c
  end.

Fixpoint run (fuel : nat) (c : Config) : Config :=
  match fuel with
  | O => c
  | S fuel' => run fuel' (step c)
  end.

(** Lines 74 to 77: the configuration in which the loop is entered. *)
Definition run_quiz_loop (g : Random) (input : list string) : Config :=
  mkConfig Reshuffle build_questions 0 0 g input (print_greeting []).

(** A generator whose every raw draw is 0. *)
Definition zero_tape : Random := mkRandom (fun _ => 0) 0.

(** ** The vocabulary of the statements *)

(** Four options, and a key among the four letters. *)
Definition well_formed (q : Question) : Prop :=
  len (options q) = 4 /\ In (correct_option_key q) LETTER_KEYS.

(** An id inside the bank. *)
Definition in_bank (n : Z) (w : World) : Prop := 0 <= n < len (QUESTIONS w).

(** The 404 of the three handlers that take an id. *)
Definition not_found (question_id : Z) (w : World) : Response :=
  mkResponse 404 (JObj [("detail", JStr (not_found_detail question_id w))]).

(** A handler that returns the world it was given. *)
Definition read_only {A : Type} (h : Handler A) : Prop :=
  forall w, snd (h w) = w.

(** Serving a list of requests one after the other. *)
Fixpoint serve_all (reqs : list Request) (w : World)
  : list Response * World :=
  match reqs with
  | [] => ([], w)
  | req :: reqs' =>
      let (resp, w') := app req w in
      let (resps, w'') := serve_all reqs' w' in
      (resp :: resps, w'')
  end.

(** The questions the loop still holds at its current point. *)
Definition held (k : Control) : list Question :=
  match k with
  | NextQuestion pending => pending
  | Asking q pending => q :: pending
  | _ => []
  end.

(** The local [questions] and everything the loop holds are well formed. *)
Definition sound (c : Config) : Prop :=
  Forall well_formed (questions c) /\ Forall well_formed (held (control c)).

(** The loop has ended on a failed letter or option lookup. *)
Definition lookup_failed (c : Config) : Prop :=
  control c = Crashed ValueError \/ control c = Crashed IndexError.

(** The next step reads one of the four letters. *)
Definition answers (c : Config) : bool :=
  match control c, stdin c with
  | Asking _ _, line :: _ => contains LETTER_KEYS (lower (strip line))
  | _, _ => false
  end.

(** An endpoint whose world after the request is related to the world
    before it. *)
Definition respects (kept : World -> World -> Prop) (e : Endpoint) : Prop :=
  forall params req w, kept w (snd (e params req w)).

(** ** More requests, and the loop in two pieces *)

Definition GET_stats : Request := mkRequest GET ["api"; "stats"] None.

(** The routes without the sixth, the one for /api/questions/random. *)
Definition served_routes : list Route := (firstn 5 routes ++ skipn 6 routes)%list.


(** [ask_for_choice] (lines 65 to 70) as a function of the lines that are
    still to be read: the choice it returns or the exception of [input],
    the lines left, and the output after it. *)
Fixpoint ask_for_choice (prompt_text : string) (input : list string)
    (out : list string) : result string * list string * list string :=
  match input with
  | [] => (Raise EOFError, [], (out ++ [prompt_text])%list)
  | line :: rest =>
      let raw := lower (strip line) in
      if accepted raw then (Return raw, rest, (out ++ [prompt_text])%list)
      else ask_for_choice prompt_text rest
             (print guidance (out ++ [prompt_text])%list)
  end.

(** Lines 88 to 105: what the body of the [for] does with the choice that
    [ask_for_choice] returned. *)
Definition after_choice (choice : string) (q : Question)
    (pending : list Question) (c : Config) : Config :=
  if String.eqb choice "q" then
    goto Returned
      (write (print (tally (total_answered c) (score c)) (stdout c)) c)
  else if String.eqb choice "s" then
    goto (NextQuestion pending) (write (print ("Skipped." ++ nl) (stdout c)) c)
  else feedback choice q pending c.

(** A line that [ask_for_choice] turns into the choice q. *)
Definition quits (line : string) : bool :=
  String.eqb (lower (strip line)) "q".

(** What is known about a route when the router arrives at it after the
    routes [before]: either the path of the request was already seen under
    a method that is not the request's, or an earlier route of the same
    method matches the path. *)
Definition covered (req : Request) (shadowed : Route) (before : list Route)
    (seen : bool) : Prop :=
  match_path (route_path shadowed) (path req) <> None ->
  (seen = true /\
   Method_eqb (route_method shadowed) (method req) = false) \/
  exists r, In r before /\ route_method r = route_method shadowed /\
            match_path (route_path r) (path req) <> None.

(** The value of a field of a JSON object. *)
Definition json_field (j : json) (k : string) : option json :=
  match j with
  | JObj fields =>
      option_map snd (find (fun kv => String.eqb (fst kv) k) fields)
  | _ => None
  end.

(** * Properties *)

(** ** The model on concrete inputs *)

Example str_of_ints : str 99 = "99" /\ str (-1) = "-1" /\ str 0 = "0".
Proof. repeat split; reflexivity. Qed.

Example choice_is_normalised : lower (strip "  Q ") = "q".
Proof. reflexivity. Qed.

Example shuffle_of_five :
  fst (shuffle [1; 2; 3; 4; 5] (mkRandom (fun n => Z.of_nat n + 3) 0)) =
  [2; 5; 3; 1; 4].
Proof. reflexivity. Qed.

Example wrong_method :
  fst (app (mkRequest POST ["api"; "questions"] None) (startup zero_tape)) =
  mkResponse 405 (JObj [("detail", JStr "Method Not Allowed")]).
Proof. reflexivity. Qed.

Example answer_outside_pattern :
  fst (app (POST_submit 2 "e") (startup zero_tape)) =
  validation_error [["body"; "answer"]].
Proof. reflexivity. Qed.

(** One right answer, one rejected line, one wrong answer, one skip, and
    the loop is left with two answered and one correct. *)
Example a_session :
  let c := run 12 (run_quiz_loop zero_tape ["B"; "x"; "a"; "s"; " q"]) in
  control c = Returned /\ score c = 1 /\ total_answered c = 2 /\
  stdin c = [] /\
  last (stdout c) "" = tally 2 1 ++ nl.
Proof. repeat split; reflexivity. Qed.

(** ** The Python layer *)

Section PyFacts.
Context {A : Type}.

Lemma len_nonneg (l : list A) : 0 <= len l.
Proof. unfold len. lia. Qed.

(** Inside [0, len) the subscript returns the element at that position. *)
Lemma getitem_in_range (l : list A) (i : Z) :
  0 <= i < len l ->
  exists a, getitem l i = Return a /\ nth_error l (Z.to_nat i) = Some a.
Proof.
  intros Hi. unfold getitem.
  destruct (Z.ltb_spec i 0) as [Hneg | _]; [lia |].
  destruct (Z.ltb_spec i 0) as [Hneg | _]; [lia |].
  destruct (nth_error l (Z.to_nat i)) as [a |] eqn:Hnth.
  - exists a. split; reflexivity.
  - apply nth_error_None in Hnth. unfold len in Hi. lia.
Qed.

Lemma getitem_In (l : list A) (i : Z) (a : A) :
  getitem l i = Return a -> In a l.
Proof.
  unfold getitem.
  destruct ((if i <? 0 then len l + i else i) <? 0); [discriminate |].
  destruct (nth_error l _) as [b |] eqn:Hnth; [| discriminate].
  intros [= <-]. eapply nth_error_In. exact Hnth.
Qed.

End PyFacts.

(** [int] reads back what [str] prints. *)
Lemma parse_int_str (n : Z) : parse_int (str n) = Some n.
Proof.
  unfold parse_int, str.
  rewrite NilZero.isi.
  - simpl. f_equal. apply DecimalZ.of_to.
  - destruct n as [| p | p]; simpl; try discriminate.
    intros [= H]. revert H. apply DecimalPos.Unsigned.to_uint_nonnil.
  - destruct n as [| p | p]; simpl; try discriminate.
    intros [= H]. revert H. apply DecimalPos.Unsigned.to_uint_nonnil.
Qed.

Lemma str_nonempty (n : Z) : String.eqb (str n) "" = false.
Proof.
  pose proof (parse_int_str n) as H.
  destruct (str n); [discriminate H | reflexivity].
Qed.

Lemma index_Return_bounds (t : list string) (x : string) (i : Z) :
  index t x = Return i -> 0 <= i < len t /\ In x t.
Proof.
  revert i. induction t as [| y t IH]; intros i; simpl; [discriminate |].
  destruct (String.eqb_spec y x) as [-> | Hne].
  - intros [= <-]. unfold len. simpl. split; [lia | now left].
  - destruct (index t x) as [j | e]; simpl; [| discriminate].
    intros [= <-]. destruct (IH j eq_refl) as [Hj Hin].
    unfold len in *. simpl. split; [lia | now right].
Qed.

Lemma index_Raise (t : list string) (x : string) (e : exn) :
  index t x = Raise e -> e = ValueError /\ ~ In x t.
Proof.
  induction t as [| y t IH]; simpl.
  - intros [= <-]. split; [reflexivity | tauto].
  - destruct (String.eqb_spec y x) as [-> | Hne]; [discriminate |].
    destruct (index t x) as [j | e']; simpl; [discriminate |].
    intros [= <-]. destruct (IH eq_refl) as [-> Hnot].
    split; [reflexivity |]. intros [Heq | Hin]; [congruence | tauto].
Qed.

(** ** The bank invariant *)

Lemma build_questions_well_formed : Forall well_formed build_questions.
Proof.
  unfold build_questions.
  repeat apply Forall_cons; try apply Forall_nil;
    (split; [reflexivity | simpl; auto 6]).
Qed.

(** For a well-formed question the letter has a position and the position
    has an option. *)
Lemma correct_text_well_formed (q : Question) :
  well_formed q ->
  exists i text,
    index LETTER_KEYS (correct_option_key q) = Return i /\
    getitem (options q) i = Return text /\
    correct_text q = Return text.
Proof.
  intros [Hlen Hkey]. unfold correct_text.
  destruct (options q) as [| o0 [| o1 [| o2 [| o3 [| o4 os]]]]];
    unfold len in Hlen; simpl in Hlen; try lia.
  simpl in Hkey.
  destruct Hkey as [<- | [<- | [<- | [<- | []]]]]; simpl.
  - exists 0, o0. repeat split.
  - exists 1, o1. repeat split.
  - exists 2, o2. repeat split.
  - exists 3, o3. repeat split.
Qed.

(** ** Which handler serves which request *)

Lemma app_GET_question (n : Z) (w : World) :
  app (GET_question (str n)) w =
  (respond QuestionResponse.dump (fst (get_question n w)),
   snd (get_question n w)).
Proof.
  unfold app, GET_question, routes. simpl.
  rewrite str_nonempty. simpl.
  unfold serve_by_id. simpl.
  rewrite parse_int_str.
  destruct (get_question n w); reflexivity.
Qed.

Lemma app_GET_question_detail (n : Z) (w : World) :
  app (GET_question_detail (str n)) w =
  (respond QuestionDetailResponse.dump (fst (get_question_detail n w)),
   snd (get_question_detail n w)).
Proof.
  unfold app, GET_question_detail, routes. simpl.
  rewrite str_nonempty. simpl.
  match goal with
  | |- context [if ?b then @None ?T else None] => destruct b
  end.
  all: unfold serve_by_id; simpl; rewrite parse_int_str.
  all: destruct (get_question_detail n w); reflexivity.
Qed.

Lemma app_GET_questions (w : World) :
  app GET_questions w =
  (respond (fun l => JArr (map QuestionResponse.dump l))
     (fst (get_all_questions w)),
   w).
Proof. reflexivity. Qed.

Lemma app_POST_submit (n : Z) (a : string) (w : World) :
  app (POST_submit n a) w =
  let r := AnswerSubmitRequest.make n a in
  if AnswerSubmitRequest.valid r
  then (respond AnswerResponse.dump (fst (submit_answer r w)),
        snd (submit_answer r w))
  else (validation_error (body_errors r), w).
Proof.
  unfold app, POST_submit, routes. simpl.
  unfold serve_by_body. simpl.
  destruct (AnswerSubmitRequest.valid _); [| reflexivity].
  destruct (submit_answer _ w); reflexivity.
Qed.

(** The answer pattern accepts exactly the four letters. *)
Lemma pattern_a_d_iff (a : string) :
  AnswerSubmitRequest.pattern_a_d a = true <-> In a LETTER_KEYS.
Proof.
  split.
  - destruct a as [| c [| c' a']]; simpl; try discriminate.
    destruct c as [[|] [|] [|] [|] [|] [|] [|] [|]]; simpl;
      try discriminate; auto 6.
  - simpl. intros [<- | [<- | [<- | [<- | []]]]]; reflexivity.
Qed.

(** ** The three handlers that take an id *)

Lemma bounds_check_in (n : Z) (w : World) :
  in_bank n w -> orb (n <? 0) (n >=? len (QUESTIONS w)) = false.
Proof.
  unfold in_bank. intros H.
  destruct (Z.ltb_spec n 0); [lia |].
  destruct (Z.geb_spec n (len (QUESTIONS w))); [lia | reflexivity].
Qed.

Lemma bounds_check_out (n : Z) (w : World) :
  ~ in_bank n w -> orb (n <? 0) (n >=? len (QUESTIONS w)) = true.
Proof.
  unfold in_bank. intros H.
  destruct (Z.ltb_spec n 0); [reflexivity |].
  destruct (Z.geb_spec n (len (QUESTIONS w))); [reflexivity | lia].
Qed.

Lemma get_question_in (n : Z) (w : World) (q : Question) :
  in_bank n w -> getitem (QUESTIONS w) n = Return q ->
  get_question n w =
  (Ok (QuestionResponse.make n (question_text q) (options q)), w).
Proof.
  intros Hin Hq. unfold get_question.
  rewrite (bounds_check_in _ _ Hin), Hq. reflexivity.
Qed.

Lemma get_question_detail_in (n : Z) (w : World) (q : Question) :
  in_bank n w -> getitem (QUESTIONS w) n = Return q ->
  get_question_detail n w =
  (Ok (QuestionDetailResponse.make n (question_text q) (options q)
         (correct_option_key q) (explanation q)), w).
Proof.
  intros Hin Hq. unfold get_question_detail.
  rewrite (bounds_check_in _ _ Hin), Hq. reflexivity.
Qed.

Lemma submit_answer_in (r : AnswerSubmitRequest.t) (w : World)
    (q : Question) (text : string) :
  in_bank (AnswerSubmitRequest.question_id r) w ->
  getitem (QUESTIONS w) (AnswerSubmitRequest.question_id r) = Return q ->
  correct_text q = Return text ->
  submit_answer r w =
  (Ok (AnswerResponse.make
         (String.eqb (lower (AnswerSubmitRequest.answer r))
                     (lower (correct_option_key q)))
         (correct_option_key q) text (explanation q)), w).
Proof.
  intros Hin Hq Htext. unfold submit_answer.
  rewrite (bounds_check_in _ _ Hin), Hq. simpl. rewrite Htext. reflexivity.
Qed.

Lemma get_question_out (n : Z) (w : World) :
  ~ in_bank n w ->
  get_question n w = (HTTPException 404 (not_found_detail n w), w).
Proof.
  intros Hout. unfold get_question.
  rewrite (bounds_check_out _ _ Hout). reflexivity.
Qed.

Lemma get_question_detail_out (n : Z) (w : World) :
  ~ in_bank n w ->
  get_question_detail n w = (HTTPException 404 (not_found_detail n w), w).
Proof.
  intros Hout. unfold get_question_detail.
  rewrite (bounds_check_out _ _ Hout). reflexivity.
Qed.

Lemma submit_answer_out (r : AnswerSubmitRequest.t) (w : World) :
  ~ in_bank (AnswerSubmitRequest.question_id r) w ->
  submit_answer r w =
  (HTTPException 404
     (not_found_detail (AnswerSubmitRequest.question_id r) w), w).
Proof.
  intros Hout. unfold submit_answer.
  rewrite (bounds_check_out _ _ Hout). reflexivity.
Qed.

(** In a bank of well-formed questions every stored question has its
    answer text. *)
Lemma bank_question_answerable (w : World) (n : Z) :
  Forall well_formed (QUESTIONS w) -> in_bank n w ->
  exists q i text,
    getitem (QUESTIONS w) n = Return q /\
    index LETTER_KEYS (correct_option_key q) = Return i /\
    getitem (options q) i = Return text /\
    correct_text q = Return text.
Proof.
  intros Hwf Hin.
  destruct (getitem_in_range (QUESTIONS w) n Hin) as (q & Hq & _).
  assert (well_formed q) as Hq_wf.
  { rewrite Forall_forall in Hwf. apply Hwf. eapply getitem_In. exact Hq. }
  destruct (correct_text_well_formed q Hq_wf) as (i & text & Hi & Ht & Hc).
  exists q, i, text. auto.
Qed.

(** Two of the four letters are equal up to case only when they are the
    same letter. *)
Lemma letters_caseless (a k : string) :
  In a LETTER_KEYS -> In k LETTER_KEYS ->
  (String.eqb (lower a) (lower k) = true <-> a = k).
Proof.
  simpl.
  intros [<- | [<- | [<- | [<- | []]]]] [<- | [<- | [<- | [<- | []]]]];
    simpl; split; intros H; try reflexivity; discriminate H.
Qed.

(** ** What each request is answered with *)

Lemma valid_request (n : Z) (a : string) :
  0 <= n -> In a LETTER_KEYS ->
  AnswerSubmitRequest.valid (AnswerSubmitRequest.make n a) = true.
Proof.
  intros Hn Ha. unfold AnswerSubmitRequest.valid. simpl.
  apply andb_true_intro. split.
  - apply Z.leb_le. exact Hn.
  - apply pattern_a_d_iff. exact Ha.
Qed.

Lemma app_GET_question_in (w : World) (n : Z) (q : Question) :
  in_bank n w -> getitem (QUESTIONS w) n = Return q ->
  fst (app (GET_question (str n)) w) =
  mkResponse 200
    (JObj [("id", JInt n);
           ("question_text", JStr (question_text q));
           ("options", json_strings (options q))]).
Proof.
  intros Hin Hq.
  rewrite app_GET_question, (get_question_in _ _ q Hin Hq). reflexivity.
Qed.

Lemma app_GET_question_detail_in (w : World) (n : Z) (q : Question) :
  in_bank n w -> getitem (QUESTIONS w) n = Return q ->
  fst (app (GET_question_detail (str n)) w) =
  mkResponse 200
    (JObj [("id", JInt n);
           ("question_text", JStr (question_text q));
           ("options", json_strings (options q));
           ("correct_option_key", JStr (correct_option_key q));
           ("explanation", JStr (explanation q))]).
Proof.
  intros Hin Hq.
  rewrite app_GET_question_detail, (get_question_detail_in _ _ q Hin Hq).
  reflexivity.
Qed.

Lemma app_GET_question_out (w : World) (n : Z) :
  ~ in_bank n w ->
  fst (app (GET_question (str n)) w) = not_found n w /\
  fst (app (GET_question_detail (str n)) w) = not_found n w.
Proof.
  intros Hout. split.
  - rewrite app_GET_question, (get_question_out _ _ Hout). reflexivity.
  - rewrite app_GET_question_detail, (get_question_detail_out _ _ Hout).
    reflexivity.
Qed.

Lemma app_POST_submit_in (w : World) (n : Z) (a : string)
    (q : Question) (text : string) :
  in_bank n w -> In a LETTER_KEYS ->
  getitem (QUESTIONS w) n = Return q -> correct_text q = Return text ->
  fst (app (POST_submit n a) w) =
  mkResponse 200
    (JObj [("is_correct",
            JBool (String.eqb (lower a) (lower (correct_option_key q))));
           ("correct_answer", JStr (correct_option_key q));
           ("correct_answer_text", JStr text);
           ("explanation", JStr (explanation q))]).
Proof.
  intros Hin Ha Hq Htext.
  rewrite app_POST_submit. cbv zeta.
  rewrite valid_request; [| apply Hin | exact Ha].
  rewrite (submit_answer_in (AnswerSubmitRequest.make n a) w q text
             Hin Hq Htext).
  reflexivity.
Qed.

Lemma app_POST_submit_high (w : World) (n : Z) (a : string) :
  len (QUESTIONS w) <= n -> In a LETTER_KEYS ->
  fst (app (POST_submit n a) w) = not_found n w.
Proof.
  intros Hhigh Ha. pose proof (len_nonneg (QUESTIONS w)) as Hlen.
  rewrite app_POST_submit. cbv zeta.
  rewrite valid_request; [| lia | exact Ha].
  rewrite (submit_answer_out (AnswerSubmitRequest.make n a) w).
  - reflexivity.
  - unfold in_bank. cbn [AnswerSubmitRequest.question_id]. lia.
Qed.

(** A negative id never reaches the handler: the request model refuses it. *)
Lemma app_POST_submit_negative (w : World) (n : Z) (a : string) :
  n < 0 ->
  app (POST_submit n a) w =
  (validation_error (body_errors (AnswerSubmitRequest.make n a)), w).
Proof.
  intros Hneg. rewrite app_POST_submit. cbv zeta.
  assert (AnswerSubmitRequest.valid (AnswerSubmitRequest.make n a) = false)
    as ->; [| reflexivity].
  unfold AnswerSubmitRequest.valid. simpl.
  apply andb_false_intro1. apply Z.leb_gt. exact Hneg.
Qed.

(** ** Listing the bank *)

Lemma comprehension_enumerate_from (k : Z) (l : list Question) :
  comprehension
    (fun iq => QuestionResponse.init
                 (question_to_response (snd iq) (fst iq) false))
    (enumerate_from k l) =
  Return (map (fun iq => QuestionResponse.make (fst iq)
                           (question_text (snd iq)) (options (snd iq)))
              (enumerate_from k l)).
Proof.
  revert k. induction l as [| q l IH]; intros k; simpl; [reflexivity |].
  rewrite IH. reflexivity.
Qed.

Lemma get_all_questions_lists (w : World) :
  get_all_questions w =
  (Ok (map (fun iq => QuestionResponse.make (fst iq)
                        (question_text (snd iq)) (options (snd iq)))
           (enumerate (QUESTIONS w))), w).
Proof.
  unfold get_all_questions, enumerate.
  rewrite comprehension_enumerate_from. reflexivity.
Qed.

Lemma nth_error_enumerate_from {A : Type} (k : Z) (l : list A) (i : nat) :
  nth_error (enumerate_from k l) i =
  option_map (fun a => (k + Z.of_nat i, a)) (nth_error l i).
Proof.
  revert k i. induction l as [| a l IH]; intros k [| i]; simpl;
    try reflexivity.
  - f_equal. f_equal. lia.
  - rewrite IH. destruct (nth_error l i); simpl; [| reflexivity].
    f_equal. f_equal. lia.
Qed.

Lemma enumerate_length {A : Type} (l : list A) :
  List.length (enumerate l) = List.length l.
Proof.
  unfold enumerate. generalize 0.
  induction l as [| a l IH]; intros k; simpl; [reflexivity |].
  now rewrite IH.
Qed.

(** ** Answer submission *)

(** C1. For a question id inside the bank and an answer among a, b, c, d,
    POST /api/quiz/submit answers 200 with [is_correct] the comparison of
    the lower-cased answer with the lower-cased key, which holds exactly
    when the answer is the key; [correct_answer_text] is the option at the
    position of the key among the letters.  Submitting answer c for
    question 0 gives the verdict true with the text ".py". *)
Theorem submit_verdict (g : Random) (question_id : Z) (answer : string) :
  0 <= question_id < len build_questions ->
  In answer LETTER_KEYS ->
  (exists q i text,
     getitem build_questions question_id = Return q /\
     index LETTER_KEYS (correct_option_key q) = Return i /\
     getitem (options q) i = Return text /\
     fst (app (POST_submit question_id answer) (startup g)) =
     mkResponse 200
       (JObj [("is_correct",
               JBool (String.eqb (lower answer)
                                 (lower (correct_option_key q))));
              ("correct_answer", JStr (correct_option_key q));
              ("correct_answer_text", JStr text);
              ("explanation", JStr (explanation q))]) /\
     (String.eqb (lower answer) (lower (correct_option_key q)) = true
      <-> answer = correct_option_key q)) /\
  fst (app (POST_submit 0 "c") (startup g)) =
  mkResponse 200
    (JObj [("is_correct", JBool true);
           ("correct_answer", JStr "c");
           ("correct_answer_text", JStr ".py");
           ("explanation",
            JStr ".py is the standard extension for Python source files.")]).
Proof.
  intros Hid Hanswer. split; [| reflexivity].
  assert (in_bank question_id (startup g)) as Hin by exact Hid.
  destruct (bank_question_answerable (startup g) question_id
              build_questions_well_formed Hin)
    as (q & i & text & Hq & Hi & Htext & Hcorrect).
  exists q, i, text. repeat split; try assumption.
  - apply app_POST_submit_in; assumption.
  - apply letters_caseless; [exact Hanswer |].
    apply (index_Return_bounds _ _ _ Hi).
  - apply letters_caseless; [exact Hanswer |].
    apply (index_Return_bounds _ _ _ Hi).
Qed.

Lemma submit_verdict_witness :
  fst (app (POST_submit 0 "c") (startup zero_tape)) =
  mkResponse 200
    (JObj [("is_correct", JBool true);
           ("correct_answer", JStr "c");
           ("correct_answer_text", JStr ".py");
           ("explanation",
            JStr ".py is the standard extension for Python source files.")]).
Proof.
  refine (proj2 (submit_verdict zero_tape 0 "c" _ _)).
  - unfold len. simpl. lia.
  - simpl. auto.
Defined.

(** ** The fields of a question response *)

(** C5. For an id inside the bank, GET /api/questions/{id} answers with
    exactly the fields id, question_text and options of that bank entry;
    GET /api/questions/{id}/detail answers with those three and the entry's
    correct_option_key and explanation; GET /api/questions answers with one
    three-field object for each question, in bank order, the object at
    position id carrying that id. *)
Theorem responses_by_id (w : World) (question_id : Z) :
  0 <= question_id < len (QUESTIONS w) ->
  exists q,
    getitem (QUESTIONS w) question_id = Return q /\
    fst (app (GET_question (str question_id)) w) =
    mkResponse 200
      (JObj [("id", JInt question_id);
             ("question_text", JStr (question_text q));
             ("options", json_strings (options q))]) /\
    fst (app (GET_question_detail (str question_id)) w) =
    mkResponse 200
      (JObj [("id", JInt question_id);
             ("question_text", JStr (question_text q));
             ("options", json_strings (options q));
             ("correct_option_key", JStr (correct_option_key q));
             ("explanation", JStr (explanation q))]) /\
    fst (app GET_questions w) =
    mkResponse 200
      (JArr (map (fun iq =>
                    JObj [("id", JInt (fst iq));
                          ("question_text", JStr (question_text (snd iq)));
                          ("options", json_strings (options (snd iq)))])
                 (enumerate (QUESTIONS w)))) /\
    List.length (enumerate (QUESTIONS w)) = List.length (QUESTIONS w) /\
    nth_error (enumerate (QUESTIONS w)) (Z.to_nat question_id) =
    Some (question_id, q).
Proof.
  intros Hid.
  destruct (getitem_in_range (QUESTIONS w) question_id Hid) as (q & Hq & Hnth).
  exists q. split; [exact Hq |]. repeat split.
  - apply app_GET_question_in; assumption.
  - apply app_GET_question_detail_in; assumption.
  - rewrite app_GET_questions, get_all_questions_lists. simpl.
    rewrite map_map. reflexivity.
  - apply enumerate_length.
  - unfold enumerate. rewrite nth_error_enumerate_from, Hnth. simpl.
    f_equal. f_equal. lia.
Qed.

Lemma responses_by_id_witness :
  exists q,
    getitem build_questions 0 = Return q /\
    json_keys (content (fst (app (GET_question "0") (startup zero_tape)))) =
    ["id"; "question_text"; "options"] /\
    json_keys
      (content (fst (app (GET_question_detail "0") (startup zero_tape)))) =
    ["id"; "question_text"; "options"; "correct_option_key"; "explanation"].
Proof.
  assert (0 <= 0 < len (QUESTIONS (startup zero_tape))) as H0
    by (unfold len; simpl; lia).
  destruct (responses_by_id (startup zero_tape) 0 H0)
    as (q & Hq & Hplain & Hdetail & _).
  exists q. split; [exact Hq |].
  change (GET_question "0") with (GET_question (str 0)).
  change (GET_question_detail "0") with (GET_question_detail (str 0)).
  rewrite Hplain, Hdetail. split; reflexivity.
Defined.

(** ** Ids outside the bank *)

(** C3, as stated, fails at a negative id: POST /api/quiz/submit with
    question_id -1 is answered 422, not 404. *)
Lemma submit_negative_id_is_422 :
  fst (app (POST_submit (-1) "a") (startup zero_tape)) =
  validation_error [["body"; "question_id"]] /\
  status_code (fst (app (POST_submit (-1) "a") (startup zero_tape))) <> 404.
Proof. split; [reflexivity | discriminate]. Qed.

(** C3, as the code has it.  For an id outside the bank, both GET
    endpoints answer 404 with the detail
    "Question with ID {id} not found. Available IDs: 0-4"; POST
    /api/quiz/submit answers that 404 for an id at or above the bank size,
    and 422 for a negative id, which the request model refuses before the
    handler runs.  For an id inside the bank none of the three answers
    404: each answers 200 (the submission when its answer is one of the
    four letters, and 422 otherwise). *)
Theorem not_found_by_id (g : Random) (question_id : Z) :
  let w := startup g in
  let missing :=
    mkResponse 404
      (JObj [("detail",
              JStr ("Question with ID " ++ str question_id
                      ++ " not found. Available IDs: 0-4"))]) in
  (~ 0 <= question_id < len (QUESTIONS w) ->
   fst (app (GET_question (str question_id)) w) = missing /\
   fst (app (GET_question_detail (str question_id)) w) = missing) /\
  (len (QUESTIONS w) <= question_id ->
   forall answer, In answer LETTER_KEYS ->
   fst (app (POST_submit question_id answer) w) = missing) /\
  (question_id < 0 ->
   forall answer,
   status_code (fst (app (POST_submit question_id answer) w)) = 422) /\
  (0 <= question_id < len (QUESTIONS w) ->
   status_code (fst (app (GET_question (str question_id)) w)) = 200 /\
   status_code (fst (app (GET_question_detail (str question_id)) w)) = 200 /\
   (forall answer, In answer LETTER_KEYS ->
    status_code (fst (app (POST_submit question_id answer) w)) = 200) /\
   (forall answer,
    status_code (fst (app (POST_submit question_id answer) w)) <> 404)).
Proof.
  intros w missing.
  change missing with (not_found question_id w).
  split; [| split; [| split]].
  - intros Hout. apply app_GET_question_out. exact Hout.
  - intros Hhigh answer Hanswer. apply app_POST_submit_high; assumption.
  - intros Hneg answer. rewrite app_POST_submit_negative by exact Hneg.
    reflexivity.
  - intros Hin.
    destruct (bank_question_answerable w question_id
                build_questions_well_formed Hin)
      as (q & i & text & Hq & _ & _ & Hcorrect).
    split; [| split; [| split]].
    + rewrite (app_GET_question_in w question_id q Hin Hq). reflexivity.
    + rewrite (app_GET_question_detail_in w question_id q Hin Hq).
      reflexivity.
    + intros answer Hanswer.
      rewrite (app_POST_submit_in w question_id answer q text
                 Hin Hanswer Hq Hcorrect).
      reflexivity.
    + intros answer.
      destruct (AnswerSubmitRequest.pattern_a_d answer) eqn:Hpattern.
      * apply pattern_a_d_iff in Hpattern.
        rewrite (app_POST_submit_in w question_id answer q text
                   Hin Hpattern Hq Hcorrect).
        discriminate.
      * rewrite app_POST_submit. cbv zeta.
        unfold AnswerSubmitRequest.valid.
        cbn [AnswerSubmitRequest.answer]. rewrite Hpattern, andb_false_r.
        discriminate.
Qed.

Lemma not_found_by_id_witness :
  fst (app (GET_question "99") (startup zero_tape)) =
  mkResponse 404
    (JObj [("detail",
            JStr "Question with ID 99 not found. Available IDs: 0-4")]) /\
  fst (app (POST_submit 5 "a") (startup zero_tape)) =
  mkResponse 404
    (JObj [("detail",
            JStr "Question with ID 5 not found. Available IDs: 0-4")]) /\
  status_code (fst (app (POST_submit (-1) "a") (startup zero_tape))) = 422 /\
  status_code (fst (app (GET_question "4") (startup zero_tape))) = 200.
Proof.
  split; [| split; [| split]].
  - apply (proj1 (not_found_by_id zero_tape 99)).
    unfold len. simpl. lia.
  - apply (proj1 (proj2 (not_found_by_id zero_tape 5))).
    + unfold len. simpl. lia.
    + simpl. auto.
  - apply (proj1 (proj2 (proj2 (not_found_by_id zero_tape (-1))))). lia.
  - apply (proj2 (proj2 (proj2 (not_found_by_id zero_tape 4)))).
    unfold len. simpl. lia.
Defined.

(** ** The random endpoint *)

(** C2 fails on the code.  The route /api/questions/{question_id} is
    declared before /api/questions/random, so the request for a random
    question is served by [get_question] with the text "random" as its id,
    which is no integer: the answer is 422 in every state of the
    process. *)
Theorem random_route_is_shadowed (w : World) :
  app GET_random w = (validation_error [["path"; "question_id"]], w) /\
  status_code (fst (app GET_random w)) = 422.
Proof. split; reflexivity. Qed.

(** What [get_random_question] does when it is called: with a bank that is
    not empty it returns the question at the drawn id, which lies inside
    the bank, and the generator has made one more draw. *)
Lemma get_random_question_draws (w : World) :
  0 < len (QUESTIONS w) ->
  exists n q,
    n = tape (random_inst w) (cursor (random_inst w)) mod len (QUESTIONS w) /\
    in_bank n w /\
    getitem (QUESTIONS w) n = Return q /\
    get_random_question w =
    (Ok (QuestionResponse.make n (question_text q) (options q)),
     mkWorld (QUESTIONS w)
       (mkRandom (tape (random_inst w)) (S (cursor (random_inst w))))).
Proof.
  intros Hlen.
  set (n := tape (random_inst w) (cursor (random_inst w)) mod len (QUESTIONS w)).
  assert (in_bank n w) as Hin.
  { unfold in_bank, n. apply Z.mod_pos_bound. exact Hlen. }
  destruct (getitem_in_range (QUESTIONS w) n Hin) as (q & Hq & _).
  exists n, q. repeat split; try assumption; try apply Hin.
  unfold get_random_question, randint, randbelow.
  replace (len (QUESTIONS w) - 1 + 1 - 0) with (len (QUESTIONS w)) by lia.
  destruct (Z.leb_spec (len (QUESTIONS w)) 0) as [Hle | _]; [lia |].
  cbn [QUESTIONS bind lift]. fold n. rewrite Z.add_0_l, Hq. reflexivity.
Qed.

(** ** What the handlers leave unchanged *)

Lemma root_read_only : read_only root.
Proof. intros w. reflexivity. Qed.

Lemma health_check_read_only : read_only health_check.
Proof. intros w. reflexivity. Qed.

Lemma get_stats_read_only : read_only get_stats.
Proof. intros w. reflexivity. Qed.

Lemma get_all_questions_read_only : read_only get_all_questions.
Proof. intros w. reflexivity. Qed.

Lemma get_question_read_only (n : Z) : read_only (get_question n).
Proof.
  intros w. unfold get_question.
  destruct (orb _ _); reflexivity.
Qed.

Lemma get_question_detail_read_only (n : Z) :
  read_only (get_question_detail n).
Proof.
  intros w. unfold get_question_detail.
  destruct (orb _ _); reflexivity.
Qed.

Lemma submit_answer_read_only (r : AnswerSubmitRequest.t) :
  read_only (submit_answer r).
Proof.
  intros w. unfold submit_answer.
  destruct (orb _ _); reflexivity.
Qed.

Lemma get_random_question_keeps_bank (w : World) :
  QUESTIONS (snd (get_random_question w)) = QUESTIONS w.
Proof.
  unfold get_random_question.
  destruct (randint _ _ _) as [drawn g']. reflexivity.
Qed.

Section Routing.
(** A relation between the world before and after a request that every
    endpoint of a route table respects is respected by the router. *)
Variable kept : World -> World -> Prop.
Hypothesis kept_refl : forall w, kept w w.

Lemma serve_respects {A : Type} (dump : A -> json) (h : Handler A) :
  (forall w, kept w (snd (h w))) -> respects kept (serve dump h).
Proof.
  intros Hh params req w. unfold serve.
  specialize (Hh w). destruct (h w) as [o w']. exact Hh.
Qed.

Lemma serve_by_id_respects {A : Type} (dump : A -> json)
    (h : Z -> Handler A) :
  (forall n w, kept w (snd (h n w))) -> respects kept (serve_by_id dump h).
Proof.
  intros Hh params req w. unfold serve_by_id.
  destruct (option_map _ _) as [raw |]; [| apply kept_refl].
  destruct (parse_int raw) as [n |]; [| apply kept_refl].
  specialize (Hh n w). destruct (h n w) as [o w']. exact Hh.
Qed.

Lemma serve_by_body_respects {A : Type} (dump : A -> json)
    (h : AnswerSubmitRequest.t -> Handler A) :
  (forall r w, kept w (snd (h r w))) -> respects kept (serve_by_body dump h).
Proof.
  intros Hh params req w. unfold serve_by_body.
  destruct (body req) as [r |]; [| apply kept_refl].
  destruct (AnswerSubmitRequest.valid r); [| apply kept_refl].
  specialize (Hh r w). destruct (h r w) as [o w']. exact Hh.
Qed.

Lemma route_request_respects (rs : list Route) :
  Forall (fun r => respects kept (endpoint r)) rs ->
  forall seen req w, kept w (snd (route_request rs seen req w)).
Proof.
  induction 1 as [| r rs Hr _ IH]; intros seen req w; simpl.
  - destruct seen; apply kept_refl.
  - destruct (match_path (route_path r) (path req)) as [params |].
    + destruct (Method_eqb (route_method r) (method req)).
      * apply Hr.
      * apply IH.
    + apply IH.
Qed.
End Routing.

(** No request changes the bank. *)
Lemma app_keeps_bank (req : Request) (w : World) :
  QUESTIONS (snd (app req w)) = QUESTIONS w.
Proof.
  unfold app.
  apply (route_request_respects (fun w w' => QUESTIONS w' = QUESTIONS w));
    [reflexivity |].
  unfold routes.
  repeat apply Forall_cons; try apply Forall_nil; cbn [endpoint].
  - apply serve_respects. intros w0. now rewrite root_read_only.
  - apply serve_respects. intros w0. now rewrite health_check_read_only.
  - apply serve_respects. intros w0. now rewrite get_stats_read_only.
  - apply serve_respects. intros w0. now rewrite get_all_questions_read_only.
  - apply serve_by_id_respects; [reflexivity |]. intros n w0.
    now rewrite get_question_read_only.
  - apply serve_respects. intros w0. apply get_random_question_keeps_bank.
  - apply serve_by_id_respects; [reflexivity |]. intros n w0.
    now rewrite get_question_detail_read_only.
  - apply serve_by_body_respects; [reflexivity |]. intros r w0.
    now rewrite submit_answer_read_only.
Qed.

Lemma serve_all_keeps_bank (reqs : list Request) (w : World) :
  QUESTIONS (snd (serve_all reqs w)) = QUESTIONS w.
Proof.
  revert w. induction reqs as [| req reqs IH]; intros w; simpl;
    [reflexivity |].
  pose proof (app_keeps_bank req w) as Happ.
  destruct (app req w) as [resp w']. simpl in Happ.
  specialize (IH w'). destruct (serve_all reqs w') as [resps w''].
  simpl in *. congruence.
Qed.

(** ** Shuffling *)

Section ShuffleFacts.
Context {A : Type}.

(** Writing [b] over [a] and putting [a] back in front rearranges [b]
    put in front of the list. *)
Lemma setitem_Permutation (l : list A) (i : nat) (a b : A) :
  nth_error l i = Some a ->
  Permutation (a :: setitem l i b) (b :: l).
Proof.
  revert i. induction l as [| c l IH]; intros [| i]; simpl;
    try discriminate.
  - intros [= ->]. apply perm_swap.
  - intros Hnth. specialize (IH i Hnth).
    transitivity (c :: a :: setitem l i b); [apply perm_swap |].
    transitivity (c :: b :: l); [now apply perm_skip | apply perm_swap].
Qed.

Lemma nth_error_setitem_same (l : list A) (i : nat) (a b : A) :
  nth_error l i = Some a -> nth_error (setitem l i b) i = Some b.
Proof.
  revert i. induction l as [| c l IH]; intros [| i]; simpl;
    try discriminate; auto.
Qed.

Lemma nth_error_setitem_other (l : list A) (i j : nat) (b : A) :
  i <> j -> nth_error (setitem l i b) j = nth_error l j.
Proof.
  revert i j. induction l as [| c l IH]; intros [| i] [| j] Hne; simpl;
    try reflexivity; try congruence.
  apply IH. congruence.
Qed.

(** A swap rearranges the list. *)
Lemma swap_Permutation (x : list A) (i j : nat) : Permutation (swap x i j) x.
Proof.
  unfold swap.
  destruct (nth_error x i) as [a |] eqn:Hi; [| reflexivity].
  destruct (nth_error x j) as [b |] eqn:Hj; [| reflexivity].
  assert (nth_error (setitem x i b) j = Some b) as Hj'.
  { destruct (Nat.eq_dec i j) as [<- | Hne].
    - eapply nth_error_setitem_same. exact Hi.
    - rewrite nth_error_setitem_other by exact Hne. exact Hj. }
  apply (Permutation_cons_inv (a := b)).
  transitivity (a :: setitem x i b).
  - apply setitem_Permutation. exact Hj'.
  - apply setitem_Permutation. exact Hi.
Qed.

Lemma shuffle_from_Permutation (i : nat) (x : list A) (g : Random) :
  Permutation (fst (shuffle_from i x g)) x.
Proof.
  revert x g. induction i as [| i IH]; intros x g; [reflexivity |].
  cbn [shuffle_from]. destruct (randbelow g _) as [j g'].
  rewrite IH. apply swap_Permutation.
Qed.

(** Whatever the generator draws, the shuffled list is a rearrangement of
    the list it was copied from: as long, and with the same elements. *)
Lemma shuffle_Permutation (x : list A) (g : Random) :
  Permutation (fst (shuffle x g)) x.
Proof. apply shuffle_from_Permutation. Qed.

Lemma shuffle_length (x : list A) (g : Random) :
  List.length (fst (shuffle x g)) = List.length x.
Proof. apply Permutation_length, shuffle_Permutation. Qed.

Lemma shuffle_In (x : list A) (g : Random) (a : A) :
  In a (fst (shuffle x g)) -> In a x.
Proof. apply Permutation_in, shuffle_Permutation. Qed.
End ShuffleFacts.

(** ** The interactive loop *)

(** A well-formed question can be printed. *)
Lemma format_question_well_formed (q : Question) :
  well_formed q -> exists text, format_question q = Return text.
Proof.
  intros [Hlen _]. unfold format_question.
  destruct (options q) as [| o0 [| o1 [| o2 [| o3 [| o4 os]]]]];
    unfold len in Hlen; simpl in Hlen; try lia.
  eexists. reflexivity.
Qed.

Lemma feedback_control (choice : string) (q : Question)
    (pending : list Question) (c : Config) :
  well_formed q -> control (feedback choice q pending c) = NextQuestion pending.
Proof.
  intros Hq. unfold feedback.
  destruct (correct_text_well_formed q Hq) as (i & text & _ & _ & ->).
  destruct (String.eqb choice (correct_option_key q)); reflexivity.
Qed.

Lemma feedback_questions (choice : string) (q : Question)
    (pending : list Question) (c : Config) :
  questions (feedback choice q pending c) = questions c.
Proof.
  unfold feedback.
  destruct (String.eqb choice (correct_option_key q)); [reflexivity |].
  destruct (correct_text q); reflexivity.
Qed.

Lemma feedback_counters (choice : string) (q : Question)
    (pending : list Question) (c : Config) :
  total_answered (feedback choice q pending c) = total_answered c + 1 /\
  score c <= score (feedback choice q pending c) <= score c + 1.
Proof.
  unfold feedback.
  destruct (String.eqb choice (correct_option_key q)); [simpl; lia |].
  destruct (correct_text q); simpl; lia.
Qed.

(** No step changes the local [questions]. *)
Lemma step_questions (c : Config) : questions (step c) = questions c.
Proof.
  unfold step. destruct (control c) as [| [| q pending] | q pending | |].
  - destruct (shuffle _ _). reflexivity.
  - reflexivity.
  - destruct (format_question q); reflexivity.
  - destruct (stdin c) as [| line rest]; [reflexivity |].
    destruct (accepted _); [| reflexivity].
    destruct (String.eqb _ "q"); [reflexivity |].
    destruct (String.eqb _ "s"); [reflexivity |].
    now rewrite feedback_questions.
  - reflexivity.
  - reflexivity.
Qed.

Lemma run_questions (n : nat) (c : Config) : questions (run n c) = questions c.
Proof.
  revert c. induction n as [| n IH]; intros c; simpl; [reflexivity |].
  now rewrite IH, step_questions.
Qed.

(** *** The step, one control point at a time *)

Lemma step_Reshuffle (c : Config) :
  control c = Reshuffle ->
  step c =
  mkConfig (NextQuestion (fst (shuffle (questions c) (generator c))))
    (questions c) (score c) (total_answered c)
    (snd (shuffle (questions c) (generator c))) (stdin c) (stdout c).
Proof.
  intros Hk. unfold step. rewrite Hk.
  destruct (shuffle _ _). reflexivity.
Qed.

Lemma step_NextQuestion (c : Config) (q : Question)
    (pending : list Question) (text : string) :
  control c = NextQuestion (q :: pending) ->
  format_question q = Return text ->
  step c =
  mkConfig (Asking q pending) (questions c) (score c) (total_answered c)
    (generator c) (stdin c) (stdout c ++ [text ++ nl]%string).
Proof.
  intros Hk Htext. unfold step. rewrite Hk, Htext. reflexivity.
Qed.

Lemma step_quit (c : Config) (q : Question) (pending : list Question)
    (line : string) (rest : list string) :
  control c = Asking q pending -> stdin c = line :: rest ->
  lower (strip line) = "q" ->
  step c =
  mkConfig Returned (questions c) (score c) (total_answered c) (generator c)
    rest
    (stdout c ++ [prompt; tally (total_answered c) (score c) ++ nl]%string).
Proof.
  intros Hk Hin Hraw. unfold step. rewrite Hk, Hin, Hraw.
  cbn [accepted contains existsb String.eqb Ascii.eqb Bool.eqb orb].
  unfold goto, write, print. cbn [questions score total_answered generator
    stdin stdout control].
  rewrite <- app_assoc. reflexivity.
Qed.

Lemma step_skip (c : Config) (q : Question) (pending : list Question)
    (line : string) (rest : list string) :
  control c = Asking q pending -> stdin c = line :: rest ->
  lower (strip line) = "s" ->
  step c =
  mkConfig (NextQuestion pending) (questions c) (score c) (total_answered c)
    (generator c) rest
    (stdout c ++ [prompt; "Skipped." ++ nl ++ nl]%string).
Proof.
  intros Hk Hin Hraw. unfold step. rewrite Hk, Hin, Hraw.
  cbn [accepted contains existsb String.eqb Ascii.eqb Bool.eqb orb].
  unfold goto, write, print. cbn [questions score total_answered generator
    stdin stdout control].
  rewrite <- app_assoc. reflexivity.
Qed.

Lemma run_terminal (n : nat) (c : Config) :
  control c = Returned -> run n c = c.
Proof.
  intros Hk. induction n as [| n IH]; simpl; [reflexivity |].
  replace (step c) with c; [exact IH |].
  unfold step. now rewrite Hk.
Qed.

(** From the start the loop shuffles, prints one question of the bank and
    stands at its first [input]. *)
Lemma first_prompt (g : Random) (input : list string) :
  exists q pending text,
    In q build_questions /\
    format_question q = Return text /\
    run 2 (run_quiz_loop g input) =
    mkConfig (Asking q pending) build_questions 0 0
      (snd (shuffle build_questions g)) input
      (print_greeting [] ++ [text ++ nl]%string).
Proof.
  pose proof (shuffle_length build_questions g) as Hlen.
  pose proof (shuffle_In build_questions g) as Hsub.
  cbn [run]. rewrite (step_Reshuffle (run_quiz_loop g input) eq_refl).
  cbn [run_quiz_loop questions generator score total_answered stdin stdout].
  destruct (fst (shuffle build_questions g)) as [| q pending];
    [discriminate Hlen |].
  assert (In q build_questions) as Hq by (apply Hsub; now left).
  assert (well_formed q) as Hwf.
  { pose proof build_questions_well_formed as Hall.
    rewrite Forall_forall in Hall. now apply Hall. }
  destruct (format_question_well_formed q Hwf) as [text Htext].
  exists q, pending, text. split; [exact Hq |]. split; [exact Htext |].
  erewrite step_NextQuestion; [reflexivity | reflexivity | exact Htext].
Qed.

(** *** The counters *)

(** A token that passes the test of [ask_for_choice] and is neither q nor s
    is one of the four letters, and the other way round. *)
Lemma accepted_letter (raw : string) :
  contains LETTER_KEYS raw =
  andb (accepted raw)
       (andb (negb (String.eqb raw "q")) (negb (String.eqb raw "s"))).
Proof.
  unfold accepted, contains. cbn [existsb LETTER_KEYS].
  destruct (String.eqb_spec raw "q") as [-> | _]; [reflexivity |].
  destruct (String.eqb_spec raw "s") as [-> | _]; [reflexivity |].
  cbn [orb negb andb]. now rewrite andb_true_r.
Qed.

(** What one step does to the counters: a step that reads one of the four
    letters adds one to [total_answered] and nothing or one to [score];
    every other step leaves both alone. *)
Lemma step_counters (c : Config) :
  total_answered (step c) = total_answered c + (if answers c then 1 else 0) /\
  score c <= score (step c) <= score c + (if answers c then 1 else 0).
Proof.
  unfold step, answers.
  destruct (control c) as [| [| q pending] | q pending | |];
    try (simpl; lia).
  - destruct (shuffle _ _). simpl. lia.
  - destruct (format_question q); simpl; lia.
  - destruct (stdin c) as [| line rest]; [simpl; lia |].
    rewrite accepted_letter.
    destruct (accepted _); [| simpl; lia].
    destruct (String.eqb _ "q"); [simpl; lia |].
    destruct (String.eqb _ "s"); [simpl; lia |].
    cbn [negb andb].
    match goal with
    | |- context [feedback ?raw q pending ?c'] =>
        pose proof (feedback_counters raw q pending c') as H
    end.
    simpl in H. exact H.
Qed.

Lemma step_counters_ordered (c : Config) :
  0 <= score c <= total_answered c ->
  0 <= score (step c) <= total_answered (step c).
Proof.
  pose proof (step_counters c) as H.
  destruct (answers c); lia.
Qed.

Lemma run_counters_ordered (n : nat) (c : Config) :
  0 <= score c <= total_answered c ->
  0 <= score (run n c) <= total_answered (run n c).
Proof.
  revert c. induction n as [| n IH]; intros c Hc; simpl; [exact Hc |].
  apply IH, step_counters_ordered, Hc.
Qed.

Lemma run_counters_grow (n : nat) (c : Config) :
  score c <= score (run n c) /\ total_answered c <= total_answered (run n c).
Proof.
  revert c. induction n as [| n IH]; intros c; simpl; [lia |].
  pose proof (step_counters c) as H. specialize (IH (step c)).
  destruct (answers c); lia.
Qed.

(** *** Lookups in the loop *)

Lemma getitem_Raise {A : Type} (l : list A) (i : Z) (e : exn) :
  0 <= i -> getitem l i = Raise e -> e = IndexError /\ len l <= i.
Proof.
  intros Hi. unfold getitem.
  destruct (Z.ltb_spec i 0) as [Hneg | _]; [lia |].
  destruct (Z.ltb_spec i 0) as [Hneg | _]; [lia |].
  destruct (nth_error l (Z.to_nat i)) eqn:Hnth; [discriminate |].
  intros [= <-]. split; [reflexivity |].
  apply nth_error_None in Hnth. unfold len. lia.
Qed.

Lemma step_sound (c : Config) : sound c -> sound (step c).
Proof.
  intros [Hbank Hheld]. unfold sound. rewrite step_questions.
  split; [exact Hbank |].
  unfold step.
  destruct (control c) as [| [| q pending] | q pending | |] eqn:Hk;
    cbn [held] in *.
  - destruct (shuffle (questions c) (generator c)) as [shuffled g'] eqn:Hs.
    cbn [control held]. rewrite Forall_forall in *. intros q Hq.
    apply Hbank. apply (shuffle_In (questions c) (generator c)).
    rewrite Hs. exact Hq.
  - constructor.
  - destruct (format_question q); cbn [goto control held];
      [exact Hheld | constructor].
  - destruct (stdin c) as [| line rest]; [constructor |].
    destruct (accepted _); [| cbn [write control held]; exact Hheld].
    destruct (String.eqb _ "q"); [constructor |].
    destruct (String.eqb _ "s");
      [cbn [goto control held]; now inversion Hheld |].
    rewrite feedback_control by now inversion Hheld.
    cbn [held]. now inversion Hheld.
  - rewrite Hk. constructor.
  - rewrite Hk. constructor.
Qed.

Lemma step_lookup (c : Config) :
  sound c -> ~ lookup_failed c -> ~ lookup_failed (step c).
Proof.
  intros [Hbank Hheld] Hok. unfold lookup_failed, step in *.
  destruct (control c) as [| [| q pending] | q pending | |] eqn:Hk;
    cbn [held] in *.
  - destruct (shuffle _ _). cbn [control]. intros [H | H]; discriminate.
  - cbn [goto control]. intros [H | H]; discriminate.
  - assert (well_formed q) as Hq by now inversion Hheld.
    destruct (format_question_well_formed q Hq) as [text ->].
    cbn [goto control]. intros [H | H]; discriminate.
  - destruct (stdin c) as [| line rest];
      [cbn [goto control]; intros [H | H]; discriminate |].
    destruct (accepted _);
      [| cbn [write control]; intros [H | H]; discriminate].
    destruct (String.eqb _ "q");
      [cbn [goto control]; intros [H | H]; discriminate |].
    destruct (String.eqb _ "s");
      [cbn [goto control]; intros [H | H]; discriminate |].
    rewrite feedback_control by now inversion Hheld.
    intros [H | H]; discriminate.
  - rewrite Hk. intros [H | H]; discriminate.
  - rewrite Hk. exact Hok.
Qed.

Lemma run_lookup (n : nat) (c : Config) :
  sound c -> ~ lookup_failed c -> ~ lookup_failed (run n c).
Proof.
  revert c. induction n as [| n IH]; intros c Hs Hok; simpl; [exact Hok |].
  apply IH; [apply step_sound, Hs | apply step_lookup; assumption].
Qed.

Lemma run_quiz_loop_sound (g : Random) (input : list string) :
  sound (run_quiz_loop g input) /\ ~ lookup_failed (run_quiz_loop g input).
Proof.
  repeat split.
  - exact build_questions_well_formed.
  - constructor.
  - intros [H | H]; discriminate.
Qed.

Lemma submit_answer_no_escape (w : World) (r : AnswerSubmitRequest.t)
    (e : exn) :
  Forall well_formed (QUESTIONS w) -> fst (submit_answer r w) <> Uncaught e.
Proof.
  intros Hwf. unfold submit_answer.
  destruct (orb _ _) eqn:Hb; [discriminate |].
  apply orb_false_elim in Hb as [Hlow Hhigh].
  assert (in_bank (AnswerSubmitRequest.question_id r) w) as Hin.
  { unfold in_bank. apply Z.ltb_ge in Hlow.
    rewrite Z.geb_leb in Hhigh. apply Z.leb_gt in Hhigh. lia. }
  destruct (bank_question_answerable w _ Hwf Hin)
    as (q & i & text & -> & _ & _ & Hc).
  cbn [bind]. rewrite Hc. discriminate.
Qed.

(** ** Quitting, skipping, counting *)

(** C7. When the loop stands at its prompt and the line read is the token
    q (after stripping and lower-casing), the step writes the prompt and
    the tally line with [total_answered] and [score], changes neither, and
    ends in the returned state, where the loop stays.  With such a line as
    the first line of input, the run from the start ends after its third
    step with the tally of 0 answered and 0 correct as its last output. *)
Theorem quit_prints_tally (c : Config) (q : Question)
    (pending : list Question) (line : string) (rest : list string) :
  control c = Asking q pending ->
  stdin c = line :: rest ->
  lower (strip line) = "q" ->
  (step c =
   mkConfig Returned (questions c) (score c) (total_answered c) (generator c)
     rest
     (stdout c ++ [prompt; tally (total_answered c) (score c) ++ nl]%string) /\
   tally (total_answered c) (score c) =
   nl ++ "Exiting quiz. You answered " ++ str (total_answered c)
      ++ " question(s) with " ++ str (score c) ++ " correct." /\
   forall n, run n (step c) = step c) /\
  forall g,
    let final := run 3 (run_quiz_loop g (line :: rest)) in
    control final = Returned /\
    score final = 0 /\ total_answered final = 0 /\
    exists out,
      stdout final =
      (out ++ [prompt;
               nl ++ "Exiting quiz. You answered 0 question(s) with 0 correct."
                  ++ nl]%string)%list.
Proof.
  intros Hk Hin Hraw. split.
  - pose proof (step_quit c q pending line rest Hk Hin Hraw) as Hstep.
    split; [exact Hstep |]. split; [reflexivity |].
    intros n. apply run_terminal. rewrite Hstep. reflexivity.
  - intros g.
    destruct (first_prompt g (line :: rest))
      as (q0 & pending0 & text & _ & _ & Hrun).
    cbv zeta. change 3%nat with (2 + 1)%nat.
    replace (run (2 + 1) (run_quiz_loop g (line :: rest)))
      with (step (run 2 (run_quiz_loop g (line :: rest))))
      by reflexivity.
    rewrite Hrun.
    erewrite step_quit; [| reflexivity | reflexivity | exact Hraw].
    cbn [control score total_answered stdout].
    repeat split. eexists. reflexivity.
Qed.

Lemma quit_prints_tally_witness :
  control (run 3 (run_quiz_loop zero_tape [" Q "])) = Returned /\
  last (stdout (run 3 (run_quiz_loop zero_tape [" Q "]))) "" =
  nl ++ "Exiting quiz. You answered 0 question(s) with 0 correct." ++ nl.
Proof.
  assert (exists q pending,
            control (run 2 (run_quiz_loop zero_tape [" Q "])) =
            Asking q pending) as (q & pending & Hk)
    by (eexists; eexists; reflexivity).
  destruct (quit_prints_tally (run 2 (run_quiz_loop zero_tape [" Q "]))
              q pending " Q " [] Hk eq_refl eq_refl) as [_ Hstart].
  destruct (Hstart zero_tape) as (Hreturned & _ & _ & out & Hout).
  split; [exact Hreturned |].
  rewrite Hout.
  match goal with
  | |- last (out ++ [prompt; ?x])%list _ = _ =>
      change (out ++ [prompt; x])%list with (out ++ [prompt] ++ [x])%list
  end.
  rewrite app_assoc. apply last_last.
Defined.

(** C8. When the loop stands at its prompt and the line read is the token
    s, the step writes the prompt and "Skipped." and nothing else, leaves
    [score] and [total_answered] as they were, and moves to the head of
    the [for] loop with the questions still pending; when one is pending,
    the next step prints it and stands at the prompt for it, the counters
    still unchanged. *)
Theorem skip_keeps_counters (c : Config) (q : Question)
    (pending : list Question) (line : string) (rest : list string) :
  control c = Asking q pending ->
  stdin c = line :: rest ->
  lower (strip line) = "s" ->
  step c =
  mkConfig (NextQuestion pending) (questions c) (score c) (total_answered c)
    (generator c) rest
    (stdout c ++ [prompt; "Skipped." ++ nl ++ nl]%string) /\
  score (step c) = score c /\
  total_answered (step c) = total_answered c /\
  answers c = false /\
  forall q' pending' text,
    pending = q' :: pending' ->
    format_question q' = Return text ->
    control (step (step c)) = Asking q' pending' /\
    score (step (step c)) = score c /\
    total_answered (step (step c)) = total_answered c /\
    stdout (step (step c)) = (stdout (step c) ++ [text ++ nl]%string)%list.
Proof.
  intros Hk Hin Hraw.
  pose proof (step_skip c q pending line rest Hk Hin Hraw) as Hstep.
  split; [exact Hstep |]. rewrite Hstep. cbn [score total_answered].
  repeat split.
  - unfold answers. rewrite Hk, Hin, Hraw. reflexivity.
  - subst pending. erewrite step_NextQuestion; [| reflexivity | eassumption].
    reflexivity.
  - subst pending. erewrite step_NextQuestion; [| reflexivity | eassumption].
    reflexivity.
  - subst pending. erewrite step_NextQuestion; [| reflexivity | eassumption].
    reflexivity.
  - subst pending. erewrite step_NextQuestion; [| reflexivity | eassumption].
    reflexivity.
Qed.

Lemma skip_keeps_counters_witness :
  score (run 3 (run_quiz_loop zero_tape ["s"])) = 0 /\
  total_answered (run 3 (run_quiz_loop zero_tape ["s"])) = 0.
Proof.
  assert (exists q pending,
            control (run 2 (run_quiz_loop zero_tape ["s"])) =
            Asking q pending) as (q & pending & Hk)
    by (eexists; eexists; reflexivity).
  destruct (skip_keeps_counters (run 2 (run_quiz_loop zero_tape ["s"]))
              q pending "s" [] Hk eq_refl eq_refl)
    as (_ & Hscore & Htotal & _).
  split; [exact Hscore | exact Htotal].
Defined.

(** C10. At every point of every execution of the loop, whatever the
    generator and the input, [0 <= score <= total_answered]; a step that
    reads one of the four letters adds exactly one to [total_answered] and
    nothing or one to [score], every other step leaves both unchanged; and
    neither counter is ever smaller later than it was before. *)
Theorem counters_invariant (g : Random) (input : list string) (n : nat) :
  let c := run n (run_quiz_loop g input) in
  0 <= score c <= total_answered c /\
  total_answered (step c) = total_answered c + (if answers c then 1 else 0) /\
  score c <= score (step c) <= score c + (if answers c then 1 else 0) /\
  forall m, score c <= score (run m c) /\
            total_answered c <= total_answered (run m c).
Proof.
  intros c. split; [| split; [| split]].
  - apply run_counters_ordered. simpl. lia.
  - apply step_counters.
  - apply step_counters.
  - intros m. apply run_counters_grow.
Qed.

(** ** The lookup of the correct option *)

(** C9. Looking up the text of the correct option raises only when the key
    is not one of the four letters ([ValueError]) or its position lies at
    or past the end of the options ([IndexError]).  For a well-formed
    question neither happens: in a bank of well-formed questions no
    exception escapes [submit_answer], and the feedback of the loop goes
    on to the next question.  The bank that is built is such a bank, so
    no exception escapes [submit_answer] in the running service and no
    execution of the loop ends on a failed lookup. *)
Theorem lookup_never_fails (w : World) (q : Question) :
  Forall well_formed (QUESTIONS w) ->
  well_formed q ->
  (forall q' e,
     correct_text q' = Raise e ->
     (e = ValueError /\ ~ In (correct_option_key q') LETTER_KEYS) \/
     (e = IndexError /\
      exists i, index LETTER_KEYS (correct_option_key q') = Return i /\
                len (options q') <= i)) /\
  (exists text, correct_text q = Return text) /\
  (forall r e, fst (submit_answer r w) <> Uncaught e) /\
  (forall choice pending c,
     control (feedback choice q pending c) = NextQuestion pending) /\
  (forall g r e, fst (submit_answer r (startup g)) <> Uncaught e) /\
  (forall g input n, ~ lookup_failed (run n (run_quiz_loop g input))).
Proof.
  intros Hbank Hq. split; [| split; [| split; [| split; [| split]]]].
  - intros q' e. unfold correct_text.
    destruct (index LETTER_KEYS (correct_option_key q')) as [i | e0] eqn:Hi;
      cbn [bind].
    + intros Hget. right.
      destruct (index_Return_bounds _ _ _ Hi) as [Hrange _].
      destruct (getitem_Raise _ _ _ (proj1 Hrange) Hget) as [-> Hlen].
      split; [reflexivity |]. exists i. split; [reflexivity | exact Hlen].
    + intros [= <-]. left. apply (index_Raise _ _ _ Hi).
  - destruct (correct_text_well_formed q Hq) as (i & text & _ & _ & Hc).
    exists text. exact Hc.
  - intros r e. apply submit_answer_no_escape. exact Hbank.
  - intros choice pending c. apply feedback_control. exact Hq.
  - intros g r e. apply submit_answer_no_escape.
    exact build_questions_well_formed.
  - intros g input n. apply run_lookup; apply run_quiz_loop_sound.
Qed.

Lemma lookup_never_fails_witness :
  exists text,
    correct_text (mkQuestion "What is 1 + 1?" ["0"; "1"; "2"; "3"] "c" "Sum.")
    = Return text.
Proof.
  refine (proj1 (proj2
            (lookup_never_fails (startup zero_tape)
               (mkQuestion "What is 1 + 1?" ["0"; "1"; "2"; "3"] "c" "Sum.")
               _ _))).
  - unfold startup, build_questions, well_formed, len. simpl.
    repeat apply Forall_cons; try apply Forall_nil;
      (split; [reflexivity | simpl; auto 6]).
  - unfold well_formed, len. simpl. split; [reflexivity | auto 6].
Defined.

(** ** The bank over time *)

(** C4. Every question that [build_questions] returns has four options and
    a key among a, b, c, d, so that the key has a position and the position
    has an option; the service starts with that bank and still has it
    after any sequence of requests; the loop starts with it and still has
    it after any number of steps. *)
Theorem bank_invariant :
  Forall (fun q =>
            len (options q) = 4 /\
            In (correct_option_key q) LETTER_KEYS /\
            exists i text,
              index LETTER_KEYS (correct_option_key q) = Return i /\
              getitem (options q) i = Return text)
         build_questions /\
  (forall g, QUESTIONS (startup g) = build_questions) /\
  (forall req w, QUESTIONS (snd (app req w)) = QUESTIONS w) /\
  (forall g reqs,
     QUESTIONS (snd (serve_all reqs (startup g))) = build_questions) /\
  (forall c, questions (step c) = questions c) /\
  (forall g input n,
     questions (run n (run_quiz_loop g input)) = build_questions).
Proof.
  split; [| split; [| split; [| split; [| split]]]].
  - eapply Forall_impl; [| exact build_questions_well_formed].
    intros q Hq.
    destruct (correct_text_well_formed q Hq) as (i & text & Hi & Ht & _).
    destruct Hq as [Hlen Hkey]. repeat split; try assumption.
    exists i, text. split; assumption.
  - reflexivity.
  - apply app_keeps_bank.
  - intros g reqs. apply serve_all_keeps_bank.
  - apply step_questions.
  - intros g input n. apply run_questions.
Qed.

(** ** Submission has no effect *)






(** * Further properties *)

(** ** Routes that are never served *)

Section Shadowing.
Variable req : Request.
Variable shadowed : Route.

Lemma route_request_shadowed (before after : list Route) (seen : bool)
    (w : World) :
  covered req shadowed before seen ->
  route_request (before ++ shadowed :: after) seen req w =
  route_request (before ++ after) seen req w.
Proof.
  revert seen. induction before as [| a before IH]; intros seen Hcov.
  - simpl.
    destruct (match_path (route_path shadowed) (path req)) as [params |]
      eqn:Hs; [| reflexivity].
    unfold covered in Hcov. rewrite Hs in Hcov.
    destruct Hcov as [[-> ->] | (r & [] & _)]; [discriminate | reflexivity].
  - simpl.
    destruct (match_path (route_path a) (path req)) as [params |] eqn:Ha.
    + destruct (Method_eqb (route_method a) (method req)) eqn:Hm;
        [reflexivity |].
      apply IH. intros Hs.
      destruct (Hcov Hs) as [[_ Hmiss] | (r & [<- | Hin] & Hsame & Hr)].
      * left. split; [reflexivity | exact Hmiss].
      * left. split; [reflexivity |]. rewrite <- Hsame. exact Hm.
      * right. exists r. auto.
    + apply IH. intros Hs.
      destruct (Hcov Hs) as [Hseen | (r & [<- | Hin] & Hsame & Hr)].
      * left. exact Hseen.
      * congruence.
      * right. exists r. auto.
Qed.
End Shadowing.

Lemma random_route_covered (req : Request) :
  covered req
    (mkRoute GET [Lit "api"; Lit "questions"; Lit "random"]
       (serve QuestionResponse.dump get_random_question))
    (firstn 5 routes) false.
Proof.
  intros Hs. right.
  exists (mkRoute GET [Lit "api"; Lit "questions"; Param "question_id"]
            (serve_by_id QuestionResponse.dump get_question)).
  split; [simpl; tauto |]. split; [reflexivity |].
  destruct (path req) as [| a [| b [| c [| d l]]]];
    cbn [route_path match_path option_map] in *; try congruence.
  - destruct (String.eqb "api" a); [| congruence].
    destruct (String.eqb "questions" b); [| congruence].
    destruct (String.eqb_spec "random" c) as [Hc | _]; [| congruence].
    subst c. discriminate.
  - destruct (String.eqb "api" a); [| congruence].
    destruct (String.eqb "questions" b); [| congruence].
    destruct (String.eqb "random" c); congruence.
Qed.

(** The router answers every request as it would without the route for
    /api/questions/random. *)
Lemma app_served_routes (req : Request) (w : World) :
  app req w = route_request served_routes false req w.
Proof.
  unfold app, served_routes.
  change routes with
    (firstn 5 routes
       ++ mkRoute GET [Lit "api"; Lit "questions"; Lit "random"]
            (serve QuestionResponse.dump get_random_question)
       :: skipn 6 routes)%list at 1.
  apply route_request_shadowed. apply random_route_covered.
Qed.

(** X1. Every request is answered as if the route /api/questions/random
    had not been declared: [get_random_question] is never called, and so
    no request changes the world, neither the bank nor the generator. *)
Theorem random_route_never_served (req : Request) (w : World) :
  app req w = route_request served_routes false req w /\
  snd (app req w) = w.
Proof.
  split; [apply app_served_routes |].
  rewrite app_served_routes.
  apply (route_request_respects (fun w w' => w' = w)); [reflexivity |].
  unfold served_routes, routes. cbn [firstn skipn List.app].
  repeat apply Forall_cons; try apply Forall_nil; cbn [endpoint].
  - apply serve_respects. apply root_read_only.
  - apply serve_respects. apply health_check_read_only.
  - apply serve_respects. apply get_stats_read_only.
  - apply serve_respects. apply get_all_questions_read_only.
  - apply serve_by_id_respects; [reflexivity |]. intros n.
    apply get_question_read_only.
  - apply serve_by_id_respects; [reflexivity |]. intros n.
    apply get_question_detail_read_only.
  - apply serve_by_body_respects; [reflexivity |]. intros r.
    apply submit_answer_read_only.
Qed.

(** ** No failure inside a handler *)

Section Responses.
Variable P : Response -> Prop.
Variable w : World.
Hypothesis P_not_found : P (mkResponse 404 (JObj [("detail", JStr "Not Found")])).
Hypothesis P_not_allowed :
  P (mkResponse 405 (JObj [("detail", JStr "Method Not Allowed")])).

End Responses.



(** A handler that takes an id refuses it with the 404 or finds the
    question. *)
Lemma get_question_outcome (n : Z) (w : World) :
  fst (get_question n w) = HTTPException 404 (not_found_detail n w) \/
  exists q, getitem (QUESTIONS w) n = Return q /\
            fst (get_question n w) =
            Ok (QuestionResponse.make n (question_text q) (options q)).
Proof.
  unfold get_question.
  destruct (orb _ _) eqn:Hb; [left; reflexivity | right].
  apply orb_false_elim in Hb as [Hlow Hhigh].
  assert (in_bank n w) as Hin.
  { unfold in_bank. apply Z.ltb_ge in Hlow.
    rewrite Z.geb_leb in Hhigh. apply Z.leb_gt in Hhigh. lia. }
  destruct (getitem_in_range (QUESTIONS w) n Hin) as (q & Hq & _).
  exists q. split; [exact Hq |]. rewrite Hq. reflexivity.
Qed.






(** X3. A stored question whose key is none of the four letters makes
    every accepted submission for it fail inside the handler: the
    [ValueError] of the lookup escapes and the answer is 500, whatever the
    letter submitted. *)
Theorem submit_with_unknown_key (w : World) (n : Z) (a : string)
    (q : Question) :
  0 <= n < len (QUESTIONS w) ->
  getitem (QUESTIONS w) n = Return q ->
  In a LETTER_KEYS ->
  ~ In (correct_option_key q) LETTER_KEYS ->
  fst (submit_answer (AnswerSubmitRequest.make n a) w) = Uncaught ValueError /\
  fst (app (POST_submit n a) w) =
  mkResponse 500 (JStr "Internal Server Error").
Proof.
  intros Hin Hq Ha Hkey.
  assert (correct_text q = Raise ValueError) as Htext.
  { unfold correct_text.
    destruct (index LETTER_KEYS (correct_option_key q)) as [i | e] eqn:Hi.
    - destruct (index_Return_bounds _ _ _ Hi) as [_ Hmem]. tauto.
    - destruct (index_Raise _ _ _ Hi) as [-> _]. reflexivity. }
  assert (fst (submit_answer (AnswerSubmitRequest.make n a) w)
          = Uncaught ValueError) as Hsubmit.
  { unfold submit_answer. cbn [AnswerSubmitRequest.question_id].
    rewrite (bounds_check_in n w Hin), Hq. cbn [bind fst].
    rewrite Htext. reflexivity. }
  split; [exact Hsubmit |].
  rewrite app_POST_submit. cbv zeta.
  rewrite valid_request; [| apply Hin | exact Ha].
  cbn [fst]. rewrite Hsubmit. reflexivity.
Qed.

Lemma submit_with_unknown_key_witness :
  fst (app (POST_submit 0 "a")
         (mkWorld [mkQuestion "Which?" ["w"; "x"; "y"; "z"] "C" "Third."]
            zero_tape)) =
  mkResponse 500 (JStr "Internal Server Error").
Proof.
  apply (submit_with_unknown_key
           (mkWorld [mkQuestion "Which?" ["w"; "x"; "y"; "z"] "C" "Third."]
              zero_tape)
           0 "a" (mkQuestion "Which?" ["w"; "x"; "y"; "z"] "C" "Third.")).
  - unfold len. simpl. lia.
  - reflexivity.
  - simpl. auto.
  - simpl. intros [H | [H | [H | [H | []]]]]; discriminate H.
Defined.

(** ** Requests by id, whatever the id *)

(** The request for /api/questions/x is refused by the router for an empty
    [x], by the validation of the path for an [x] that is no integer, and
    goes to [get_question] otherwise. *)
Lemma app_GET_question_any (x : string) (w : World) :
  app (GET_question x) w =
  if String.eqb x "" then
    (mkResponse 404 (JObj [("detail", JStr "Not Found")]), w)
  else match parse_int x with
       | Some n => (respond QuestionResponse.dump (fst (get_question n w)), w)
       | None => (validation_error [["path"; "question_id"]], w)
       end.
Proof.
  destruct (String.eqb_spec x "") as [-> | Hx]; [reflexivity |].
  apply String.eqb_neq in Hx.
  unfold app, GET_question, routes. simpl. rewrite Hx. simpl.
  unfold serve_by_id. simpl.
  destruct (parse_int x) as [n |]; [| reflexivity].
  pose proof (get_question_read_only n w) as Hw.
  destruct (get_question n w) as [o w']. simpl in *. now subst.
Qed.




(** X5. Whatever is asked of /api/questions/x, the answer has no field
    correct_option_key and no field explanation; and every element of the
    answer of /api/questions has exactly the fields id, question_text and
    options. *)
Theorem plain_answers_hide_the_key (x : string) (w : World) :
  ~ In "correct_option_key"
      (json_keys (content (fst (app (GET_question x) w)))) /\
  ~ In "explanation"
      (json_keys (content (fst (app (GET_question x) w)))) /\
  exists items,
    content (fst (app GET_questions w)) = JArr items /\
    List.length items = List.length (QUESTIONS w) /\
    Forall (fun j => json_keys j = ["id"; "question_text"; "options"]) items.
Proof.
  assert (forall k, k = "correct_option_key" \/ k = "explanation" ->
            ~ In k (json_keys (content (fst (app (GET_question x) w)))))
    as Hkeys.
  { intros k Hk. rewrite app_GET_question_any.
    destruct (String.eqb x "").
    - simpl. intros [<- | []]; destruct Hk; discriminate.
    - destruct (parse_int x) as [n |].
      + destruct (get_question_outcome n w) as [-> | (q & _ & ->)]; simpl.
        * intros [<- | []]; destruct Hk; discriminate.
        * intros [<- | [<- | [<- | []]]]; destruct Hk; discriminate.
      + simpl. intros [<- | []]; destruct Hk; discriminate. }
  split; [apply Hkeys; now left |]. split; [apply Hkeys; now right |].
  rewrite app_GET_questions, get_all_questions_lists. simpl.
  eexists. split; [reflexivity |]. split.
  - now rewrite !length_map, enumerate_length.
  - rewrite map_map. apply Forall_forall. intros j Hj.
    apply in_map_iff in Hj as (iq & <- & _). reflexivity.
Qed.

(** ** How the answers fit together *)

Lemma app_GET_stats (w : World) :
  app GET_stats w =
  (mkResponse 200 (JObj [("total_questions", JInt (len (QUESTIONS w)))]), w).
Proof. reflexivity. Qed.

(** X6. The count that /api/stats reports is the number of elements that
    /api/questions lists, and it is the bound of the ids: the element at
    position n of the list is the answer of /api/questions/n, for every n
    from 0 up to the count, and from the count on the id is answered
    404. *)
Theorem stats_list_and_ids_agree (w : World) (n : Z) :
  exists items,
    content (fst (app GET_questions w)) = JArr items /\
    content (fst (app GET_stats w)) =
    JObj [("total_questions", JInt (len items))] /\
    (0 <= n < len items ->
     nth_error items (Z.to_nat n) =
     Some (content (fst (app (GET_question (str n)) w))) /\
     status_code (fst (app (GET_question (str n)) w)) = 200) /\
    (len items <= n ->
     status_code (fst (app (GET_question (str n)) w)) = 404).
Proof.
  rewrite app_GET_questions, get_all_questions_lists, app_GET_stats.
  cbn [fst respond content]. eexists. split; [reflexivity |].
  assert (forall items : list json,
            List.length items = List.length (QUESTIONS w) ->
            len items = len (QUESTIONS w)) as Hlen
    by (intros items H; unfold len; now rewrite H).
  rewrite (Hlen _) by now rewrite !length_map, enumerate_length.
  split; [reflexivity |]. split.
  - intros Hn.
    destruct (getitem_in_range (QUESTIONS w) n Hn) as (q & Hq & Hnth).
    rewrite (app_GET_question_in w n q Hn Hq). split; [| reflexivity].
    rewrite map_map, nth_error_map. unfold enumerate.
    rewrite nth_error_enumerate_from, Hnth. simpl.
    rewrite Z2Nat.id by lia. reflexivity.
  - intros Hn.
    destruct (app_GET_question_out w n) as [-> _]; [| reflexivity].
    unfold in_bank. lia.
Qed.

Lemma stats_list_and_ids_agree_witness :
  exists items,
    content (fst (app GET_questions (startup zero_tape))) = JArr items /\
    nth_error items 2 =
    Some (content (fst (app (GET_question "2") (startup zero_tape)))).
Proof.
  destruct (stats_list_and_ids_agree (startup zero_tape) 2)
    as (items & Hlist & Hstats & Hin & _).
  exists items. split; [exact Hlist |].
  apply Hin.
  rewrite app_GET_stats in Hstats. cbn [fst content] in Hstats.
  injection Hstats as Hcount.
  rewrite <- Hcount. unfold len. simpl. lia.
Defined.

(** X7. The answer of the submit endpoint and the answer of the detail
    endpoint for the same id carry the same key and the same explanation;
    the verdict is the plain comparison of the answer with that key, and
    the text that the submission reports is the option of the detail at
    the position of the key among the letters. *)
Theorem submit_agrees_with_detail (w : World) (n : Z) (a : string) :
  Forall well_formed (QUESTIONS w) ->
  0 <= n < len (QUESTIONS w) ->
  In a LETTER_KEYS ->
  let detail := content (fst (app (GET_question_detail (str n)) w)) in
  let verdict := content (fst (app (POST_submit n a) w)) in
  exists key opts i text,
    json_field detail "correct_option_key" = Some (JStr key) /\
    json_field detail "options" = Some (json_strings opts) /\
    json_field verdict "correct_answer" = Some (JStr key) /\
    json_field verdict "explanation" = json_field detail "explanation" /\
    json_field verdict "is_correct" = Some (JBool (String.eqb a key)) /\
    index LETTER_KEYS key = Return i /\
    nth_error opts (Z.to_nat i) = Some text /\
    json_field verdict "correct_answer_text" = Some (JStr text).
Proof.
  intros Hbank Hn Ha.
  destruct (bank_question_answerable w n Hbank Hn)
    as (q & i & text & Hq & Hi & Htext & Hcorrect).
  cbv zeta.
  rewrite (app_GET_question_detail_in w n q Hn Hq).
  rewrite (app_POST_submit_in w n a q text Hn Ha Hq Hcorrect).
  cbn [content].
  destruct (index_Return_bounds _ _ _ Hi) as [Hrange Hkey].
  assert (String.eqb (lower a) (lower (correct_option_key q))
          = String.eqb a (correct_option_key q)) as ->.
  { destruct (String.eqb_spec a (correct_option_key q)) as [Heq | Hne].
    - now apply letters_caseless.
    - destruct (String.eqb (lower a) (lower (correct_option_key q))) eqn:Hl;
        [| reflexivity].
      apply letters_caseless in Hl; [contradiction | exact Ha | exact Hkey]. }
  exists (correct_option_key q), (options q), i, text.
  repeat split; try assumption.
  unfold getitem in Htext.
  destruct (Z.ltb_spec i 0) as [Hneg | _]; [lia |].
  destruct (Z.ltb_spec i 0) as [Hneg | _]; [lia |].
  destruct (nth_error (options q) (Z.to_nat i)); [| discriminate].
  now injection Htext as ->.
Qed.

Lemma submit_agrees_with_detail_witness :
  exists key,
    json_field (content (fst (app (POST_submit 1 "a") (startup zero_tape))))
      "correct_answer" = Some (JStr key) /\
    json_field
      (content (fst (app (GET_question_detail "1") (startup zero_tape))))
      "correct_option_key" = Some (JStr key).
Proof.
  destruct (submit_agrees_with_detail (startup zero_tape) 1 "a")
    as (key & opts & i & text & Hdetail & _ & Hsubmit & _).
  - unfold startup, build_questions, well_formed, len. simpl.
    repeat apply Forall_cons; try apply Forall_nil;
      (split; [reflexivity | simpl; auto 6]).
  - unfold len. simpl. lia.
  - simpl. auto.
  - exists key. split; [exact Hsubmit | exact Hdetail].
Defined.

(** ** What the request model lets through *)

(** X8. A submission reaches the handler exactly when its id is not
    negative and its answer is one of a, b, c, d; otherwise it is answered
    422, with one entry for the id when the id is negative and one for the
    answer when the answer is not one of the letters.  An answer that is
    let through is already in lower case, so the lower-casing in the
    handler changes nothing. *)
Theorem submit_validation (n : Z) (a : string) (w : World) :
  let r := AnswerSubmitRequest.make n a in
  (AnswerSubmitRequest.valid r = true <-> 0 <= n /\ In a LETTER_KEYS) /\
  (In ["body"; "question_id"] (body_errors r) <-> n < 0) /\
  (In ["body"; "answer"] (body_errors r) <-> ~ In a LETTER_KEYS) /\
  (~ (0 <= n /\ In a LETTER_KEYS) ->
   app (POST_submit n a) w = (validation_error (body_errors r), w) /\
   body_errors r <> []) /\
  (In a LETTER_KEYS -> lower a = a).
Proof.
  cbv zeta.
  assert (AnswerSubmitRequest.valid (AnswerSubmitRequest.make n a) = true
          <-> 0 <= n /\ In a LETTER_KEYS) as Hvalid.
  { unfold AnswerSubmitRequest.valid. simpl.
    rewrite andb_true_iff, Z.leb_le, pattern_a_d_iff. reflexivity. }
  unfold body_errors. cbn [AnswerSubmitRequest.question_id
    AnswerSubmitRequest.answer].
  pose proof (pattern_a_d_iff a) as Hpattern.
  split; [exact Hvalid |]. split; [| split; [| split]].
  - destruct (Z.leb_spec 0 n) as [Hn | Hn];
      destruct (AnswerSubmitRequest.pattern_a_d a); simpl; split;
      intros Hi; try lia; auto;
      repeat (destruct Hi as [Hi | Hi]; try discriminate Hi);
      contradiction.
  - destruct (Z.leb_spec 0 n) as [Hn | Hn];
      destruct (AnswerSubmitRequest.pattern_a_d a) eqn:Hp; simpl; split;
      intros Hi; auto.
    all: try (exfalso; apply Hi; apply Hpattern; reflexivity).
    all: try (intros Ha; apply Hpattern in Ha; discriminate Ha).
    all: repeat (destruct Hi as [Hi | Hi]; try discriminate Hi);
      contradiction.
  - intros Hno. rewrite app_POST_submit. cbv zeta.
    destruct (AnswerSubmitRequest.valid _) eqn:Hv;
      [destruct Hno; now apply Hvalid |].
    split; [reflexivity |].
    unfold body_errors. cbn [AnswerSubmitRequest.question_id
      AnswerSubmitRequest.answer].
    destruct (Z.leb_spec 0 n); [| discriminate].
    destruct (AnswerSubmitRequest.pattern_a_d a); [| discriminate].
    exfalso. apply Hno. split; [assumption | now apply Hpattern].
  - simpl. intros [<- | [<- | [<- | [<- | []]]]]; reflexivity.
Qed.

Lemma submit_validation_witness :
  app (POST_submit 0 "C") (startup zero_tape) =
  (validation_error [["body"; "answer"]], startup zero_tape).
Proof.
  apply (proj1 (proj2 (proj2 (proj2
           (submit_validation 0 "C" (startup zero_tape)))))).
  simpl. intros [_ [H | [H | [H | [H | []]]]]]; discriminate H.
Defined.

(** ** The random handler, called *)

(** X9. Called with an empty bank, [get_random_question] lets the
    [ValueError] of [randint] escape and draws nothing.  Called with a
    bank that is not empty, it returns the question at an id inside the
    bank, hides the key, makes exactly one draw and leaves the bank as it
    was. *)
Theorem get_random_question_called (w : World) :
  (QUESTIONS w = [] ->
   get_random_question w = (Uncaught ValueError, w)) /\
  (QUESTIONS w <> [] ->
   exists n q,
     0 <= n < len (QUESTIONS w) /\
     getitem (QUESTIONS w) n = Return q /\
     fst (get_random_question w) =
     Ok (QuestionResponse.make n (question_text q) (options q)) /\
     QUESTIONS (snd (get_random_question w)) = QUESTIONS w /\
     cursor (random_inst (snd (get_random_question w))) =
     S (cursor (random_inst w))).
Proof.
  split.
  - intros Hempty. unfold get_random_question, randint. rewrite Hempty.
    destruct w as [qs g]. simpl in *. now subst.
  - intros Hne.
    assert (0 < len (QUESTIONS w)) as Hlen.
    { unfold len. destruct (QUESTIONS w); [contradiction | simpl; lia]. }
    destruct (get_random_question_draws w Hlen)
      as (n & q & _ & Hin & Hq & ->).
    exists n, q. repeat split; try assumption; apply Hin.
Qed.

Lemma get_random_question_called_witness :
  get_random_question (mkWorld [] zero_tape) =
  (Uncaught ValueError, mkWorld [] zero_tape).
Proof.
  apply (proj1 (get_random_question_called (mkWorld [] zero_tape))).
  reflexivity.
Defined.

(** ** Reading a choice *)



Lemma feedback_stdin (choice : string) (q : Question)
    (pending : list Question) (c : Config) :
  stdin (feedback choice q pending c) = stdin c.
Proof.
  unfold feedback.
  destruct (String.eqb choice (correct_option_key q)); [reflexivity |].
  destruct (correct_text q); reflexivity.
Qed.

(** A step at the prompt with a line to read is the body of the loop on
    an accepted line, and otherwise the guidance and the same prompt. *)
Lemma step_Asking (c : Config) (q : Question) (pending : list Question)
    (line : string) (rest : list string) :
  control c = Asking q pending -> stdin c = line :: rest ->
  step c =
  if accepted (lower (strip line)) then
    after_choice (lower (strip line)) q pending
      (mkConfig (Asking q pending) (questions c) (score c)
         (total_answered c) (generator c) rest (stdout c ++ [prompt])%list)
  else
    mkConfig (Asking q pending) (questions c) (score c) (total_answered c)
      (generator c) rest (stdout c ++ [prompt; guidance ++ nl]%string)%list.
Proof.
  intros Hk Hin. unfold step, after_choice. rewrite Hk, Hin.
  destruct (accepted _).
  - destruct (String.eqb _ "q"); [reflexivity |].
    destruct (String.eqb _ "s"); reflexivity.
  - unfold write, print. cbn [control questions score total_answered
      generator stdin stdout].
    rewrite <- app_assoc. reflexivity.
Qed.


(** X11. The step machine and the two functions of the source agree: from
    the prompt for a question, some number of steps, at most one for each
    line of input and one more, ends in what the body of the [for] makes
    of the choice that [ask_for_choice] returns on the same input, or in
    the crash of its [EOFError]. *)
Theorem loop_body_in_two_pieces (c : Config) (q : Question)
    (pending : list Question) :
  control c = Asking q pending ->
  exists k,
    (k <= List.length (stdin c))%nat /\
    run (S k) c =
    match ask_for_choice prompt (stdin c) (stdout c) with
    | (Return choice, rest, out) =>
        after_choice choice q pending
          (mkConfig (Asking q pending) (questions c) (score c)
             (total_answered c) (generator c) rest out)
    | (Raise e, rest, out) =>
        mkConfig (Crashed e) (questions c) (score c) (total_answered c)
          (generator c) rest out
    end.
Proof.
  remember (stdin c) as input eqn:Hin. symmetry in Hin.
  revert c Hin. induction input as [| line rest IH]; intros c Hin Hk.
  - exists 0%nat. split; [reflexivity |].
    cbn [run ask_for_choice]. unfold step. rewrite Hk, Hin.
    unfold goto, write. cbn [control questions score total_answered
      generator stdin stdout]. rewrite Hin. reflexivity.
  - pose proof (step_Asking c q pending line rest Hk Hin) as Hstep.
    cbn [ask_for_choice].
    destruct (accepted (lower (strip line))).
    + exists 0%nat. split; [simpl; lia |]. cbn [run]. exact Hstep.
    + destruct (IH (step c)) as (k & Hle & Hrun).
      * rewrite Hstep. reflexivity.
      * rewrite Hstep. reflexivity.
      * exists (S k). split; [simpl; lia |].
        change (run (S (S k)) c) with (run (S k) (step c)).
        rewrite Hrun, Hstep.
        cbn [stdin stdout questions score total_answered generator].
        unfold print. rewrite <- app_assoc. reflexivity.
Qed.

Lemma loop_body_in_two_pieces_witness :
  exists k,
    control (run (S k) (run 2 (run_quiz_loop zero_tape ["?"; "S"]))) =
    NextQuestion
      (tl (held (control (run 2 (run_quiz_loop zero_tape ["?"; "S"]))))).
Proof.
  assert (exists q pending,
            control (run 2 (run_quiz_loop zero_tape ["?"; "S"])) =
            Asking q pending) as (q & pending & Hk)
    by (eexists; eexists; reflexivity).
  destruct (loop_body_in_two_pieces
              (run 2 (run_quiz_loop zero_tape ["?"; "S"])) q pending Hk)
    as (k & _ & Hrun).
  exists k. rewrite Hrun, Hk. reflexivity.
Defined.

(** ** How the loop ends *)

(** What a step does to the input: at the prompt it reads one line,
    anywhere else it reads nothing. *)
Lemma step_stdin (c : Config) :
  stdin (step c) =
  match control c, stdin c with
  | Asking _ _, _ :: rest => rest
  | _, input => input
  end.
Proof.
  unfold step. destruct (control c) as [| [| q pending] | q pending | |];
    try reflexivity.
  - destruct (shuffle _ _). reflexivity.
  - destruct (format_question q); reflexivity.
  - destruct (stdin c) as [| line rest] eqn:Hin;
      [cbn [goto write stdin]; exact Hin |].
    destruct (accepted _); [| reflexivity].
    destruct (String.eqb _ "q"); [reflexivity |].
    destruct (String.eqb _ "s"); [reflexivity |].
    now rewrite feedback_stdin.
Qed.

(** The only step into the returned state is the one that reads a q. *)
Lemma step_Returned (c : Config) :
  control (step c) = Returned ->
  control c = Returned \/
  exists q pending line rest,
    control c = Asking q pending /\ stdin c = line :: rest /\
    quits line = true.
Proof.
  unfold step, quits.
  destruct (control c) as [| [| q pending] | q pending | |] eqn:Hk.
  - destruct (shuffle _ _). discriminate.
  - discriminate.
  - destruct (format_question q); discriminate.
  - destruct (stdin c) as [| line rest] eqn:Hin; [discriminate |].
    destruct (accepted _); [| cbn [write control]; discriminate].
    destruct (String.eqb _ "q") eqn:Hq.
    + intros _. right. exists q, pending, line, rest. auto.
    + destruct (String.eqb _ "s"); [discriminate |].
      unfold feedback.
      destruct (String.eqb _ (correct_option_key q)); [discriminate |].
      destruct (correct_text q); discriminate.
  - auto.
  - congruence.
Qed.








(** ** Counters, input and output along an execution *)

Lemma step_budget (c : Config) :
  total_answered (step c) + len (stdin (step c)) <=
  total_answered c + len (stdin c).
Proof.
  pose proof (step_counters c) as [Htotal _].
  rewrite Htotal, step_stdin. unfold answers, len.
  destruct (control c); try lia.
  destruct (stdin c) as [| line rest]; [lia |].
  destruct (contains _ _); cbn [List.length]; lia.
Qed.

Lemma step_stdin_shrinks (c : Config) :
  exists read, stdin c = (read ++ stdin (step c))%list.
Proof.
  rewrite step_stdin.
  destruct (control c); try (exists []; reflexivity).
  destruct (stdin c) as [| line rest]; [exists []; reflexivity |].
  exists [line]. reflexivity.
Qed.

Lemma step_stdout_grows (c : Config) :
  exists written, stdout (step c) = (stdout c ++ written)%list.
Proof.
  assert (exists written, stdout c = (stdout c ++ written)%list) as Hsame
    by (exists []; now rewrite app_nil_r).
  unfold step. destruct (control c) as [| [| q pending] | q pending | |];
    try exact Hsame.
  - destruct (shuffle _ _). exact Hsame.
  - destruct (format_question q); [| exact Hsame].
    unfold goto, write, print. cbn [stdout]. eexists. reflexivity.
  - destruct (stdin c) as [| line rest];
      [cbn [goto write stdout]; eexists; reflexivity |].
    destruct (accepted _).
    + destruct (String.eqb _ "q");
        [unfold goto, write, print; cbn [stdout]; rewrite <- app_assoc;
         eexists; reflexivity |].
      destruct (String.eqb _ "s");
        [unfold goto, write, print; cbn [stdout]; rewrite <- app_assoc;
         eexists; reflexivity |].
      unfold feedback, print.
      destruct (String.eqb _ (correct_option_key q)).
      * cbn [stdout]. rewrite <- !app_assoc. eexists. reflexivity.
      * destruct (correct_text q); cbn [stdout].
        -- rewrite <- !app_assoc. eexists. reflexivity.
        -- eexists. reflexivity.
    + unfold write, print. cbn [stdout]. rewrite <- app_assoc.
      eexists. reflexivity.
Qed.

(** X14. Along every execution the input is only ever read from the front
    and the output only ever added to at the end, and the number of
    answered questions is at most the number of lines read so far. *)
Theorem reads_and_writes (g : Random) (input : list string) (n : nat) :
  let c := run n (run_quiz_loop g input) in
  (exists read, input = (read ++ stdin c)%list /\
                total_answered c <= len read) /\
  (exists written, stdout c = (print_greeting [] ++ written)%list) /\
  (exists written, stdout (step c) = (stdout c ++ written)%list).
Proof.
  cbv zeta. split; [| split].
  - assert (forall k c0,
              exists read, stdin c0 = (read ++ stdin (run k c0))%list /\
                           total_answered (run k c0) + len (stdin (run k c0))
                           <= total_answered c0 + len (stdin c0)) as Hrun.
    { induction k as [| k IH]; intros c0; cbn [run].
      - exists []. split; [reflexivity | lia].
      - destruct (IH (step c0)) as (read & Hread & Hle).
        destruct (step_stdin_shrinks c0) as [first Hfirst].
        pose proof (step_budget c0) as Hstep.
        exists (first ++ read)%list. split; [| lia].
        rewrite <- app_assoc, <- Hread. exact Hfirst. }
    destruct (Hrun n (run_quiz_loop g input)) as (read & Hread & Hle).
    exists read. split; [exact Hread |].
    cbn [run_quiz_loop stdin total_answered] in Hread, Hle.
    pose proof (f_equal (@List.length string) Hread) as Hlen.
    rewrite length_app in Hlen. unfold len in *. lia.
  - assert (forall k c0,
              exists written, stdout (run k c0) = (stdout c0 ++ written)%list)
      as Hrun.
    { induction k as [| k IH]; intros c0; cbn [run].
      - exists []. now rewrite app_nil_r.
      - destruct (IH (step c0)) as [later Hlater].
        destruct (step_stdout_grows c0) as [first Hfirst].
        exists (first ++ later)%list.
        rewrite Hlater, Hfirst, app_assoc. reflexivity. }
    apply (Hrun n (run_quiz_loop g input)).
  - apply step_stdout_grows.
Qed.

Lemma append_assoc (s t u : string) : ((s ++ t) ++ u = s ++ (t ++ u))%string.
Proof.
  induction s as [| ch s IH]; simpl; [reflexivity | now rewrite IH].
Qed.

(** The last write of a returned loop is the tally of its counters. *)
Lemma run_tally (n : nat) (c : Config) :
  (control c = Returned ->
   exists out, stdout c =
               (out ++ [prompt; tally (total_answered c) (score c) ++ nl]
                  %string)%list) ->
  control (run n c) = Returned ->
  exists out,
    stdout (run n c) =
    (out ++ [prompt;
             tally (total_answered (run n c)) (score (run n c)) ++ nl]
       %string)%list.
Proof.
  revert c. induction n as [| n IH]; intros c Hc; cbn [run]; [exact Hc |].
  apply IH. intros Hstep.
  destruct (step_Returned c Hstep)
    as [Hk | (q & pending & line & rest & Hk & Hin & Hq)].
  - replace (step c) with c by (unfold step; now rewrite Hk). auto.
  - rewrite (step_quit c q pending line rest Hk Hin)
      by (apply String.eqb_eq; exact Hq).
    cbn [stdout total_answered score]. eexists. reflexivity.
Qed.

(** X15. Whenever an execution has returned, the last two things it wrote
    are the prompt and the tally line, and the numbers in the tally are
    the final values of [total_answered] and [score]. *)
Theorem returned_with_tally (g : Random) (input : list string) (n : nat) :
  control (run n (run_quiz_loop g input)) = Returned ->
  exists out,
    stdout (run n (run_quiz_loop g input)) =
    (out ++ [prompt;
             nl ++ "Exiting quiz. You answered "
                ++ str (total_answered (run n (run_quiz_loop g input)))
                ++ " question(s) with "
                ++ str (score (run n (run_quiz_loop g input)))
                ++ " correct." ++ nl]%string)%list.
Proof.
  intros Hend.
  destruct (run_tally n (run_quiz_loop g input)) as [out Hout].
  - discriminate.
  - exact Hend.
  - exists out. rewrite Hout. unfold tally.
    rewrite !append_assoc. reflexivity.
Qed.

Lemma returned_with_tally_witness :
  exists out,
    stdout (run 6 (run_quiz_loop zero_tape ["b"; "q"])) =
    (out ++ [prompt;
             nl ++ "Exiting quiz. You answered 1 question(s) with 1 correct."
                ++ nl]%string)%list.
Proof.
  destruct (returned_with_tally zero_tape ["b"; "q"] 6 eq_refl) as [out Hout].
  exists out. exact Hout.
Defined.

(** ** One pass over the questions *)

Lemma shuffle_from_draws {A : Type} (i : nat) (x : list A) (g : Random) :
  cursor (snd (shuffle_from i x g)) = (cursor g + i)%nat /\
  tape (snd (shuffle_from i x g)) = tape g.
Proof.
  revert x g. induction i as [| i IH]; intros x g.
  - simpl. split; [lia | reflexivity].
  - cbn [shuffle_from]. unfold randbelow.
    destruct (IH (swap x (S i)
                    (Z.to_nat (tape g (cursor g) mod (Z.of_nat (S i) + 1))))
                 (mkRandom (tape g) (S (cursor g)))) as [Hc Ht].
    rewrite Hc, Ht. simpl. split; [lia | reflexivity].
Qed.

(** X16. At the head of the [while], the step hands to the [for] a
    rearrangement of the questions: every question once, none added, in an
    order that the generator decides.  The list of questions itself is not
    touched, nothing is read or written, the counters stay, and the
    generator has made one draw less than there are questions. *)
Theorem pass_is_a_rearrangement (c : Config) :
  control c = Reshuffle ->
  exists shuffled,
    control (step c) = NextQuestion shuffled /\
    Permutation shuffled (questions c) /\
    questions (step c) = questions c /\
    score (step c) = score c /\
    total_answered (step c) = total_answered c /\
    stdin (step c) = stdin c /\
    stdout (step c) = stdout c /\
    cursor (generator (step c)) =
    (cursor (generator c) + (List.length (questions c) - 1))%nat.
Proof.
  intros Hk. rewrite (step_Reshuffle c Hk).
  exists (fst (shuffle (questions c) (generator c))).
  cbn [control questions score total_answered stdin stdout generator].
  repeat split.
  - apply shuffle_Permutation.
  - apply shuffle_from_draws.
Qed.

Lemma pass_is_a_rearrangement_witness :
  exists shuffled,
    control (step (run_quiz_loop zero_tape [])) = NextQuestion shuffled /\
    Permutation shuffled build_questions.
Proof.
  destruct (pass_is_a_rearrangement (run_quiz_loop zero_tape []) eq_refl)
    as (shuffled & Hk & Hperm & _).
  exists shuffled. split; [exact Hk | exact Hperm].
Defined.



(** ** The loop and the API on the same answer *)

(** X18. For a question of a well-formed bank and a choice among the four
    letters, the loop adds one to the score exactly when the submit
    endpoint answers [is_correct] true for that question and that
    letter. *)
Theorem loop_and_api_agree (w : World) (n : Z) (choice : string)
    (q : Question) (pending : list Question) (c : Config) :
  Forall well_formed (QUESTIONS w) ->
  0 <= n < len (QUESTIONS w) ->
  getitem (QUESTIONS w) n = Return q ->
  In choice LETTER_KEYS ->
  json_field (content (fst (app (POST_submit n choice) w))) "is_correct" =
  Some (JBool (score (feedback choice q pending c) =? score c + 1)) /\
  total_answered (feedback choice q pending c) = total_answered c + 1.
Proof.
  intros Hbank Hn Hq Hchoice.
  assert (well_formed q) as Hwf.
  { rewrite Forall_forall in Hbank. apply Hbank.
    eapply getitem_In. exact Hq. }
  destruct (correct_text_well_formed q Hwf) as (i & text & _ & _ & Htext).
  rewrite (app_POST_submit_in w n choice q text Hn Hchoice Hq Htext).
  split; [| apply feedback_counters].
  cbn [content json_field find fst snd String.eqb Ascii.eqb Bool.eqb
       option_map].
  do 2 f_equal.
  unfold feedback. rewrite Htext.
  destruct (String.eqb_spec choice (correct_option_key q)) as [Heq | Hne].
  - cbn [score]. rewrite Z.eqb_refl.
    apply letters_caseless; [exact Hchoice | apply Hwf | exact Heq].
  - cbn [score].
    destruct (Z.eqb_spec (score c) (score c + 1)) as [Hbad | _]; [lia |].
    destruct (String.eqb (lower choice) (lower (correct_option_key q)))
      eqn:Hl; [| reflexivity].
    apply letters_caseless in Hl; [contradiction | exact Hchoice | apply Hwf].
Qed.

Lemma loop_and_api_agree_witness :
  json_field (content (fst (app (POST_submit 0 "c") (startup zero_tape))))
    "is_correct" = Some (JBool true).
Proof.
  refine (proj1 (loop_and_api_agree (startup zero_tape) 0 "c"
                   (mkQuestion
                      "What is the correct file extension for Python files?"
                      [".pyt"; ".pt"; ".py"; ".python"] "c"
                      ".py is the standard extension for Python source files.")
                   [] (run_quiz_loop zero_tape []) _ _ _ _)).
  - unfold startup, build_questions, well_formed, len. simpl.
    repeat apply Forall_cons; try apply Forall_nil;
      (split; [reflexivity | simpl; auto 6]).
  - unfold len. simpl. lia.
  - reflexivity.
  - simpl. auto.
Defined.

(** ** Printing a question *)

(** X19. A question with at most four options is printed as its text
    followed by one line for each option, lettered a, b, c, d in order; a
    question with more than four options cannot be printed: the fifth
    option has no letter and [format_question] raises [IndexError]. *)
Theorem format_question_by_options (q : Question) :
  (len (options q) <= 4 ->
   format_question q =
   Return (join_lines
             (question_text q
                :: map (fun lo => "  " ++ fst lo ++ ") " ++ snd lo)%string
                     (combine LETTER_KEYS (options q))))) /\
  (4 < len (options q) -> format_question q = Raise IndexError).
Proof.
  unfold format_question, len.
  destruct (options q) as [| o0 [| o1 [| o2 [| o3 [| o4 os]]]]];
    cbn [List.length]; split; intros H; try lia; reflexivity.
Qed.

Lemma format_question_by_options_witness :
  format_question
    (mkQuestion "Pick one." ["1"; "2"; "3"; "4"; "5"] "a" "Any.") =
  Raise IndexError.
Proof.
  apply (proj2 (format_question_by_options
                  (mkQuestion "Pick one." ["1"; "2"; "3"; "4"; "5"] "a"
                     "Any."))).
  unfold len. simpl. lia.
Defined.
